(** * log_watcher: metric parsers, plugin manager, log poller and watch loop

    A shallow embedding of [utils.py], [watcher.py] and [log_watcher.py].

    Conventions of the embedding.
    - Python [str] values are [string]s whose characters are code points
      below 256.
    - A Python object that is mutated in place becomes a state that is
      threaded through the monad [M]; the state survives a raised exception,
      as the attributes of a Python object do.
    - The calls into the [re] module and the [float] constructor are modelled
      by [re_search] and [py_float] below.  A [float] is the exact number its
      text denotes (or an infinity, or NaN); rounding to binary64 is not
      modelled.
    - [print] calls are omitted; SMTP delivery, the clock, the log file and
      [time.sleep] are outcomes supplied by an environment record.  The log
      file is a run of bytes; a position in it counts bytes.
    - Of [watch], the loop is modelled; the two steps before it (reading the
      mail settings, creating the plot directory) are not. *)

From Stdlib Require Import String Ascii List Bool Arith ZArith QArith Qround Lia
  Lqa.
Import ListNotations.
Local Close Scope Q_scope.
Local Open Scope nat_scope.
Local Open Scope string_scope.
Local Open Scope list_scope.

Set Implicit Arguments.

(* ===================================================================== *)
(** ** Python exceptions and the state-and-exception monad *)
(* ===================================================================== *)

Module Py.

Inductive exn : Type :=
| ValueError
| OSError
| UnicodeDecodeError
| KeyboardInterrupt.

(** [except Exception] catches every class above but [KeyboardInterrupt],
    which derives from [BaseException] only. *)
Definition is_Exception (e : exn) : bool :=
  match e with
  | KeyboardInterrupt => false
  | _ => true
  end.

Inductive outcome (A : Type) : Type :=
| Ret (a : A)
| Raise (e : exn).
Arguments Ret {A} a.
Arguments Raise {A} e.

(** A method of an object with state [S]: it returns or raises, and in both
    cases leaves the object in some state. *)
Definition M (S A : Type) : Type := S -> S * outcome A.

Definition ret {S A} (a : A) : M S A := fun s => (s, Ret a).

Definition raise {S A} (e : exn) : M S A := fun s => (s, Raise e).

Definition bind {S A B} (m : M S A) (k : A -> M S B) : M S B :=
  fun s =>
    match m s with
    | (s', Ret a) => k a s'
    | (s', Raise e) => (s', Raise e)
    end.

Definition gets {S A} (f : S -> A) : M S A := fun s => (s, Ret (f s)).

Definition modify {S} (f : S -> S) : M S unit := fun s => (f s, Ret tt).

(** An outcome decided outside the object (a library call). *)
Definition lift {S A} (o : outcome A) : M S A := fun s => (s, o).

(** [try: body except Exception: handler] *)
Definition try_except_Exception {S A} (body : M S A) (handler : exn -> M S A)
  : M S A :=
  fun s =>
    match body s with
    | (s', Ret a) => (s', Ret a)
    | (s', Raise e) => if is_Exception e then handler e s' else (s', Raise e)
    end.

(** [with ... : body]: the context manager's exit runs when the body
    returns and when it raises; an exception raised by the exit takes the
    place of the body's outcome. *)
Definition with_exit {S A} (exit : outcome unit) (body : M S A) : M S A :=
  fun s =>
    let (s', o) := body s in
    match exit with
    | Ret _ => (s', o)
    | Raise e => (s', Raise e)
    end.

(** Run a method of a component object held in a field of [S]. *)
Definition on_field {S T A} (get : S -> T) (set : T -> S -> S) (m : M T A)
  : M S A :=
  fun s => let (t', o) := m (get s) in (set t' s, o).

End Py.

Import Py.

Declare Scope py_scope.
Delimit Scope py_scope with py.
Notation "x <- m ;; k" := (bind m (fun x => k))
  (at level 61, m at next level, right associativity) : py_scope.
Notation "m ;;; k" := (bind m (fun _ => k))
  (at level 61, right associativity) : py_scope.
Local Open Scope py_scope.

(* ===================================================================== *)
(** ** Text: character classes, [str.lower], substring test *)
(* ===================================================================== *)

Module Text.

Definition code (c : ascii) : nat := nat_of_ascii c.

Definition between (lo hi : nat) (c : ascii) : bool :=
  Nat.leb lo (code c) && Nat.leb (code c) hi.

(** [\d] on code points below 256. *)
Definition is_digit (c : ascii) : bool := between 48 57 c.

(** [\s], and [str.isspace], on code points below 256: TAB..CR, FS..US,
    SPACE, NEL and NBSP. *)
Definition is_space (c : ascii) : bool :=
  between 9 13 c || between 28 32 c
  || Nat.eqb (code c) 133 || Nat.eqb (code c) 160.

(** [str.lower] on one character: A-Z, and the Latin-1 capitals
    U+00C0..U+00DE except the multiplication sign U+00D7. *)
Definition lower_char (c : ascii) : ascii :=
  if between 65 90 c then ascii_of_nat (code c + 32)
  else if between 192 222 c && negb (Nat.eqb (code c) 215)
       then ascii_of_nat (code c + 32)
  else c.

Fixpoint lower (s : string) : string :=
  match s with
  | EmptyString => EmptyString
  | String c s' => String (lower_char c) (lower s')
  end.

Fixpoint starts_with (p s : string) : bool :=
  match p, s with
  | EmptyString, _ => true
  | String a p', String b s' => Ascii.eqb a b && starts_with p' s'
  | String _ _, EmptyString => false
  end.

(** [needle in hay] *)
Fixpoint py_in (needle hay : string) : bool :=
  starts_with needle hay
  || match hay with
     | EmptyString => false
     | String _ hay' => py_in needle hay'
     end.

Fixpoint all_chars (f : ascii -> bool) (s : string) : bool :=
  match s with
  | EmptyString => true
  | String c s' => f c && all_chars f s'
  end.

Fixpoint take (n : nat) (s : string) : string :=
  match n, s with
  | S n', String c s' => String c (take n' s')
  | _, _ => EmptyString
  end.

Fixpoint drop (n : nat) (s : string) : string :=
  match n, s with
  | S n', String _ s' => drop n' s'
  | _, _ => s
  end.

Definition is_empty (s : string) : bool :=
  match s with EmptyString => true | _ => false end.

(** What a file opened in text mode with the default [newline=None] does to
    the decoded text: CR LF and a lone CR both become LF. *)
Fixpoint universal_newlines (s : string) : string :=
  match s with
  | EmptyString => EmptyString
  | String c s' =>
      if Ascii.eqb c "013" then
        match s' with
        | String "010" s'' => String "010" (universal_newlines s'')
        | _ => String "010" (universal_newlines s')
        end
      else String c (universal_newlines s')
  end.

(** The codec [latin-1]: every byte is the character of that code. *)
Definition latin_1 (bytes : string) : option string := Some bytes.


(** ["".join(parts)] *)
Fixpoint join (parts : list string) : string :=
  match parts with
  | [] => EmptyString
  | p :: rest => p ++ join rest
  end.

End Text.

Import Text.

(* ===================================================================== *)
(** ** The fragment of [re] used by the metric patterns *)
(* ===================================================================== *)

Module Re.

(** The parsers are modelled for the patterns of this fragment, which holds
    every pattern written in the source: a row of pieces that each match
    has to go through, with one capturing group that takes part in every
    match.  [StandardMetricParser] is handed its pattern as a string, and a
    string outside the fragment (no group, an optional group, an
    alternative, a flag, an invalid pattern) is outside the model; what is
    proved about a parser is proved for patterns of the fragment. *)

(** A set of characters: [[...]] built from single characters, [\d] and
    [\s]. *)
Inductive charset : Type :=
| Chr (c : ascii)
| Digit
| Space
| Union (a b : charset).

Fixpoint mem (cs : charset) (c : ascii) : bool :=
  match cs with
  | Chr d => Ascii.eqb c d
  | Digit => is_digit c
  | Space => is_space c
  | Union a b => mem a c || mem b c
  end.

(** A pattern is [before(group)after] with exactly one capturing group.
    Each part is a sequence of pieces: a literal character, one character
    of a set, or a greedy repetition [set+]. *)
Inductive piece : Type :=
| Lit (c : ascii)
| Set1 (cs : charset)
| Plus (cs : charset).

Record regex : Type := {
  re_before : list piece;
  re_group : list piece;
  re_after : list piece
}.

(** The match object; only [group(1)] is read by the callers. *)
Record Match : Type := { group1 : string }.

Fixpoint lits (s : string) : list piece :=
  match s with
  | EmptyString => []
  | String c s' => Lit c :: lits s'
  end.

Section Backtracking.
Variable R : Type.

(** After the first character of [cs+] has been consumed: take as many
    further characters as possible, and give one back at a time while the
    rest of the pattern (the continuation [k]) fails. *)
Fixpoint greedy (cs : charset) (s : string)
         (k : string -> option R) : option R :=
  match s with
  | String c s' =>
      if mem cs c then
        match greedy cs s' k with
        | Some r => Some r
        | None => k s
        end
      else k s
  | EmptyString => k s
  end.

Fixpoint match_seq (ps : list piece) (s : string)
         (k : string -> option R) : option R :=
  match ps with
  | [] => k s
  | Lit c :: ps' =>
      match s with
      | String d s' => if Ascii.eqb c d then match_seq ps' s' k else None
      | EmptyString => None
      end
  | Set1 cs :: ps' =>
      match s with
      | String d s' => if mem cs d then match_seq ps' s' k else None
      | EmptyString => None
      end
  | Plus cs :: ps' =>
      match s with
      | String d s' =>
          if mem cs d then greedy cs s' (fun t => match_seq ps' t k)
          else None
      | EmptyString => None
      end
  end.
End Backtracking.

(** An anchored match at the start of [s]; the group is the text consumed
    between its opening and its closing parenthesis. *)
Definition match_at (r : regex) (s : string) : option Match :=
  match_seq (re_before r) s (fun s1 =>
  match_seq (re_group r) s1 (fun s2 =>
  match_seq (re_after r) s2 (fun _ =>
    Some {| group1 := take (String.length s1 - String.length s2) s1 |}))).

(** [re.search(pattern, s)]: the leftmost start position that matches. *)
Fixpoint re_search (r : regex) (s : string) : option Match :=
  match match_at r s with
  | Some m => Some m
  | None =>
      match s with
      | String _ s' => re_search r s'
      | EmptyString => None
      end
  end.

(** [[:\s]] *)
Definition colon_or_space : charset := Union (Chr ":") Space.

(** [[\d\.]] *)
Definition digit_or_dot : charset := Union Digit (Chr ".").

(** [r'<word>[:\s]+([\d\.]+)'] *)
Definition decimal_after (word : string) : regex :=
  {| re_before := lits word ++ [Plus colon_or_space];
     re_group := [Plus digit_or_dot];
     re_after := [] |}.

(** [r'<word>[:\s]+(\d+)'] *)
Definition count_after (word : string) : regex :=
  {| re_before := lits word ++ [Plus colon_or_space];
     re_group := [Plus Digit];
     re_after := [] |}.

End Re.

Import Re.

(* ===================================================================== *)
(** ** [float] values and the [float(text)] constructor *)
(* ===================================================================== *)

Module Float.

Inductive pyfloat : Type :=
| Fin (q : Q)
| PInf
| NInf
| NaN.

(** [a < b] *)
Definition lt (a b : pyfloat) : bool :=
  match a, b with
  | NaN, _ | _, NaN => false
  | Fin x, Fin y => negb (Qle_bool y x)
  | Fin _, PInf => true
  | Fin _, NInf => false
  | PInf, _ => false
  | NInf, NInf => false
  | NInf, _ => true
  end.

(** [a > b] *)
Definition gt (a b : pyfloat) : bool := lt b a.

(** [a <= b] *)
Definition le (a b : pyfloat) : bool :=
  match a, b with
  | NaN, _ | _, NaN => false
  | Fin x, Fin y => Qle_bool x y
  | NInf, _ => true
  | _, PInf => true
  | _, _ => false
  end.

Definition is_nan (a : pyfloat) : bool :=
  match a with NaN => true | _ => false end.

(** [min(values)] and [max(values)] keep the first item and replace it by
    each later item that compares strictly below (above) it; on an empty
    list they raise [ValueError]. *)
Fixpoint min_from (best : pyfloat) (rest : list pyfloat) : pyfloat :=
  match rest with
  | [] => best
  | x :: rest' => min_from (if lt x best then x else best) rest'
  end.

Fixpoint max_from (best : pyfloat) (rest : list pyfloat) : pyfloat :=
  match rest with
  | [] => best
  | x :: rest' => max_from (if gt x best then x else best) rest'
  end.

Definition py_min (values : list pyfloat) : outcome pyfloat :=
  match values with
  | [] => Raise ValueError
  | x :: rest => Ret (min_from x rest)
  end.

Definition py_max (values : list pyfloat) : outcome pyfloat :=
  match values with
  | [] => Raise ValueError
  | x :: rest => Ret (max_from x rest)
  end.

(** *** Reading a number *)

(** The white space that [float] strips: of the characters of [\s], FS..US
    are not among them. *)
Definition float_space (c : ascii) : bool :=
  between 9 13 c || Nat.eqb (code c) 32
  || Nat.eqb (code c) 133 || Nat.eqb (code c) 160.

Fixpoint lstrip (s : string) : string :=
  match s with
  | String c s' => if float_space c then lstrip s' else s
  | EmptyString => EmptyString
  end.

Fixpoint rstrip (s : string) : string :=
  match s with
  | String c s' =>
      let t := rstrip s' in
      if float_space c && is_empty t then EmptyString else String c t
  | EmptyString => EmptyString
  end.

(** Underscores may only stand between two digits; they are removed. *)
Fixpoint drop_underscores (prev : ascii) (s : string) : option string :=
  match s with
  | EmptyString => if Ascii.eqb prev "_" then None else Some EmptyString
  | String c s' =>
      if Ascii.eqb c "_" then
        if is_digit prev then drop_underscores c s' else None
      else if Ascii.eqb prev "_" && negb (is_digit c) then None
      else option_map (String c) (drop_underscores c s')
  end.

(** The leading digits of [s] and what follows them. *)
Fixpoint span_digits (s : string) : string * string :=
  match s with
  | String c s' =>
      if is_digit c then let (ds, r) := span_digits s' in (String c ds, r)
      else (EmptyString, s)
  | EmptyString => (EmptyString, EmptyString)
  end.

Fixpoint digits_value (acc : Z) (ds : string) : Z :=
  match ds with
  | String c ds' => digits_value (10 * acc + Z.of_nat (code c - 48)) ds'
  | EmptyString => acc
  end.

(** [+] or [-] in front; [true] stands for minus. *)
Definition split_sign (s : string) : bool * string :=
  match s with
  | String "-" s' => (true, s')
  | String "+" s' => (false, s')
  | _ => (false, s)
  end.

(** The exponent part, or no text at all. *)
Definition read_exponent (s : string) : option Z :=
  match s with
  | EmptyString => Some 0%Z
  | String c s' =>
      if Ascii.eqb c "e" || Ascii.eqb c "E" then
        let (neg, s'') := split_sign s' in
        match span_digits s'' with
        | (String d ds, EmptyString) =>
            let e := digits_value 0 (String d ds) in
            Some (if neg then (- e)%Z else e)
        | _ => None
        end
      else None
  end.

(** [digits[.digits]][exponent] or [.digits][exponent], the whole text. *)
Definition read_decimal (s : string) : option Q :=
  let (ip, r1) := span_digits s in
  let (fp, r2) :=
    match r1 with
    | String "." r => span_digits r
    | _ => (EmptyString, r1)
    end in
  if is_empty ip && is_empty fp then None
  else
    match read_exponent r2 with
    | Some e =>
        let m := digits_value 0 (ip ++ fp) in
        Some (Qred (inject_Z m
                    * Qpower (10 # 1) (e - Z.of_nat (String.length fp))))
    | None => None
    end.

(** [inf], [infinity] and [nan], in any letter case. *)
Definition read_special (neg : bool) (s : string) : option pyfloat :=
  let t := lower s in
  if String.eqb t "inf" || String.eqb t "infinity"
  then Some (if neg then NInf else PInf)
  else if String.eqb t "nan" then Some NaN
  else None.

(** [float(text)]; [None] stands for [ValueError]. *)
Definition py_float (text : string) : option pyfloat :=
  match drop_underscores "000" (rstrip (lstrip text)) with
  | None => None
  | Some t =>
      let (neg, body) := split_sign t in
      match read_decimal body with
      | Some q => Some (Fin (if neg then Qred (- q) else q))
      | None => read_special neg body
      end
  end.

Definition float (text : string) : outcome pyfloat :=
  match py_float text with
  | Some v => Ret v
  | None => Raise ValueError
  end.

End Float.

Import Float.

(* ===================================================================== *)
(** ** [dict] with string keys, in insertion order *)
(* ===================================================================== *)

Module Dict.

Definition dict (V : Type) : Type := list (string * V).

(** [d[k] = v]: a key already present keeps its place. *)
Fixpoint set {V} (k : string) (v : V) (d : dict V) : dict V :=
  match d with
  | [] => [(k, v)]
  | (k', v') :: d' =>
      if String.eqb k k' then (k, v) :: d' else (k', v') :: set k v d'
  end.

(** [d.get(k)] *)
Fixpoint get {V} (k : string) (d : dict V) : option V :=
  match d with
  | [] => None
  | (k', v') :: d' => if String.eqb k k' then Some v' else get k d'
  end.

(** [k in d] *)
Definition mem {V} (k : string) (d : dict V) : bool :=
  match get k d with Some _ => true | None => false end.

Definition keys {V} (d : dict V) : list string := map fst d.

(** [for k, v in src.items(): d[k] = v] *)
Definition update {V} (d src : dict V) : dict V :=
  fold_left (fun acc kv => set (fst kv) (snd kv) acc) src d.

End Dict.

(* ===================================================================== *)
(** ** utils.py *)
(* ===================================================================== *)

Definition series : Type := list pyfloat.

(** [len(values) > 0], the truth value of a list. *)
Definition truthy {A} (l : list A) : bool :=
  match l with [] => false | _ => true end.

Record MetricResult : Type := {
  name : string;
  value : pyfloat;
  epoch : option Z;
  step : option Z;
  extra_info : option (Dict.dict (option pyfloat))
}.

Module StandardMetricParser.

Record t : Type := {
  metric_name : string;
  pattern : regex;
  values : series
}.

Definition init (metric_name : string) (pattern : regex) : t :=
  {| metric_name := metric_name; pattern := pattern; values := [] |}.

Definition values_append (v : pyfloat) (self : t) : t :=
  {| metric_name := metric_name self;
     pattern := pattern self;
     values := values self ++ [v] |}.

Definition parse (line : string) : M t (option MetricResult) :=
  pat <- gets pattern ;;
  match re_search pat (lower line) with
  | Some m =>
      value <- lift (float (group1 m)) ;;
      modify (values_append value) ;;;
      metric <- gets metric_name ;;
      ret (Some {| name := metric; value := value; epoch := None;
                   step := None; extra_info := None |})
  | None => ret None
  end.

Definition get_plot_data (self : t) : Dict.dict series :=
  [(metric_name self, values self)].

End StandardMetricParser.

Module WERMetricParser.

Record t : Type := {
  wer_values : series;
  substitutions : series;
  deletions : series;
  insertions : series
}.

Definition patterns : Dict.dict regex :=
  [ ("wer", decimal_after "wer");
    ("sub", count_after "substitutions");
    ("del", count_after "deletions");
    ("ins", count_after "insertions") ].

Definition init : t :=
  {| wer_values := []; substitutions := []; deletions := [];
     insertions := [] |}.

Definition wer_append (v : pyfloat) (self : t) : t :=
  {| wer_values := wer_values self ++ [v];
     substitutions := substitutions self;
     deletions := deletions self;
     insertions := insertions self |}.

Definition sub_append (v : pyfloat) (self : t) : t :=
  {| wer_values := wer_values self;
     substitutions := substitutions self ++ [v];
     deletions := deletions self;
     insertions := insertions self |}.

Definition del_append (v : pyfloat) (self : t) : t :=
  {| wer_values := wer_values self;
     substitutions := substitutions self;
     deletions := deletions self ++ [v];
     insertions := insertions self |}.

Definition ins_append (v : pyfloat) (self : t) : t :=
  {| wer_values := wer_values self;
     substitutions := substitutions self;
     deletions := deletions self;
     insertions := insertions self ++ [v] |}.

(** The loop over [self.patterns.items()] that fills [metrics]. *)
Fixpoint scan (pats : Dict.dict regex) (line : string)
         (metrics : Dict.dict pyfloat) : outcome (Dict.dict pyfloat) :=
  match pats with
  | [] => Ret metrics
  | (key, pat) :: rest =>
      match re_search pat line with
      | Some m =>
          match float (group1 m) with
          | Ret v => scan rest line (Dict.set key v metrics)
          | Raise e => Raise e
          end
      | None => scan rest line metrics
      end
  end.

(** [if key in metrics: series.append(metrics[key])] *)
Definition append_if_seen (key : string) (metrics : Dict.dict pyfloat)
           (append : pyfloat -> t -> t) : M t unit :=
  match Dict.get key metrics with
  | Some v => modify (append v)
  | None => ret tt
  end.

Definition parse (line : string) : M t (option MetricResult) :=
  let line := lower line in
  metrics <- lift (scan patterns line []) ;;
  match Dict.get "wer" metrics with
  | Some wer =>
      modify (wer_append wer) ;;;
      append_if_seen "sub" metrics sub_append ;;;
      append_if_seen "del" metrics del_append ;;;
      append_if_seen "ins" metrics ins_append ;;;
      ret (Some {| name := "WER"; value := wer; epoch := None; step := None;
                   extra_info :=
                     Some [ ("substitutions", Dict.get "sub" metrics);
                            ("deletions", Dict.get "del" metrics);
                            ("insertions", Dict.get "ins" metrics) ] |})
  | None => ret None
  end.

Definition get_plot_data (self : t) : Dict.dict series :=
  let data := [("WER", wer_values self)] in
  let data := if truthy (substitutions self)
              then Dict.set "Substitutions" (substitutions self) data
              else data in
  let data := if truthy (deletions self)
              then Dict.set "Deletions" (deletions self) data
              else data in
  let data := if truthy (insertions self)
              then Dict.set "Insertions" (insertions self) data
              else data in
  data.

(** The parser after [parse] has been called on each of [lines] in turn; a
    call that raises leaves the object as it is and the next call goes on
    from there. *)
Definition after_calls (lines : list string) (self : t) : t :=
  fold_left (fun self line => fst (parse line self)) lines self.

(** No count series is longer than the primary series. *)
Definition counts_bounded (self : t) : Prop :=
  length (substitutions self) <= length (wer_values self)
  /\ length (deletions self) <= length (wer_values self)
  /\ length (insertions self) <= length (wer_values self).

End WERMetricParser.

(** The two subclasses of [BaseMetricParser]. *)
Module BaseMetricParser.

Inductive t : Type :=
| Standard (p : StandardMetricParser.t)
| WER (p : WERMetricParser.t).

(** Dynamic dispatch of [parser.parse(line)]. *)
Definition parse (line : string) : M t (option MetricResult) :=
  fun self =>
    match self with
    | Standard p =>
        let (p', o) := StandardMetricParser.parse line p in (Standard p', o)
    | WER p =>
        let (p', o) := WERMetricParser.parse line p in (WER p', o)
    end.

Definition get_plot_data (self : t) : Dict.dict series :=
  match self with
  | Standard p => StandardMetricParser.get_plot_data p
  | WER p => WERMetricParser.get_plot_data p
  end.

(** Every pattern the parser searches for in a line. *)
Definition patterns_of (self : t) : list regex :=
  match self with
  | Standard p => [StandardMetricParser.pattern p]
  | WER _ => map snd WERMetricParser.patterns
  end.

End BaseMetricParser.

Module MetricPluginManager.

Record t : Type := { parsers : list BaseMetricParser.t }.

Definition init : t := {| parsers := [] |}.

Definition add_parser (parser : BaseMetricParser.t) (self : t) : t :=
  {| parsers := parsers self ++ [parser] |}.

(** The loop of [parse_line] over the parsers still to visit, with the
    results collected so far; it gives back those parsers in their state
    after the loop. *)
Fixpoint parse_each (line : string) (todo : list BaseMetricParser.t)
         (results : list MetricResult)
  : list BaseMetricParser.t * outcome (list MetricResult) :=
  match todo with
  | [] => ([], Ret results)
  | parser :: rest =>
      match BaseMetricParser.parse line parser with
      | (parser', Ret result) =>
          let results' := match result with
                          | Some r => results ++ [r]
                          | None => results
                          end in
          let (rest', o) := parse_each line rest results' in
          (parser' :: rest', o)
      | (parser', Raise e) => (parser' :: rest, Raise e)
      end
  end.

Definition parse_line (line : string) : M t (list MetricResult) :=
  fun self =>
    let (ps, o) := parse_each line (parsers self) [] in
    ({| parsers := ps |}, o).

Definition get_all_plot_data (self : t) : Dict.dict series :=
  fold_left (fun plot_data parser =>
               Dict.update plot_data (BaseMetricParser.get_plot_data parser))
            (parsers self) [].

End MetricPluginManager.

(* ===================================================================== *)
(** ** log_watcher.py: [ModularMLLogParser] *)
(* ===================================================================== *)

(** What [plt.figure] ... [plt.savefig] put into one image file: the title
    and the plotted curves with their labels, in plotting order.  Colours,
    line styles, axis labels, legend and grid are left out. *)
Record figure : Type := {
  title : string;
  curves : list (string * series)
}.

(** [str(Path(save_dir) / file_name)] for a plain directory name. *)
Definition path_join (save_dir file_name : string) : string :=
  save_dir ++ "/" ++ file_name.

Module ModularMLLogParser.

Record t : Type := { plugin_manager : MetricPluginManager.t }.

Definition on_plugin_manager {A} (m : M MetricPluginManager.t A) : M t A :=
  on_field plugin_manager (fun pm _ => {| plugin_manager := pm |}) m.

Definition add_standard (metric : string) (pattern : regex) (self : t) : t :=
  {| plugin_manager :=
       MetricPluginManager.add_parser
         (BaseMetricParser.Standard (StandardMetricParser.init metric pattern))
         (plugin_manager self) |}.

Definition _setup_default_parsers (self : t) : t :=
  let self := add_standard "Loss" (decimal_after "loss") self in
  let self := add_standard "Accuracy" (decimal_after "accuracy") self in
  let self := add_standard "Val_Loss" (decimal_after "val_loss") self in
  let self := add_standard "Val_Accuracy" (decimal_after "val_accuracy") self in
  {| plugin_manager :=
       MetricPluginManager.add_parser
         (BaseMetricParser.WER WERMetricParser.init) (plugin_manager self) |}.

Definition init : t :=
  _setup_default_parsers {| plugin_manager := MetricPluginManager.init |}.

Definition add_custom_metric (metric : string) (pattern : regex) (self : t)
  : t :=
  add_standard metric pattern self.

Definition parse_line (line : string) : M t (list MetricResult) :=
  on_plugin_manager (MetricPluginManager.parse_line line).

Definition main_metric_names : list string :=
  ["Loss"; "Val_Loss"; "Accuracy"; "Val_Accuracy"].

(** [if key in plot_data: plt.plot(plot_data[key], label=key, ...)] *)
Definition curve_if_present (key : string) (plot_data : Dict.dict series)
  : list (string * series) :=
  match Dict.get key plot_data with
  | Some values => [(key, values)]
  | None => []
  end.

Record plots : Type := {
  written : list (string * figure);  (** the files saved, oldest first *)
  saved_plots : list string          (** the value returned *)
}.

Definition generate_training_plots (save_dir : string) (self : t) : plots :=
  let plot_data := MetricPluginManager.get_all_plot_data (plugin_manager self) in
  let main_plot_path := path_join save_dir "main_metrics.png" in
  let main_figure :=
    {| title := "Training Progress - Main Metrics";
       curves := filter (fun kv => existsb (String.eqb (fst kv))
                                           main_metric_names)
                        plot_data |} in
  let written := [(main_plot_path, main_figure)] in
  let saved_plots := [main_plot_path] in
  if Dict.mem "WER" plot_data then
    let wer_plot_path := path_join save_dir "wer_progress.png" in
    let wer_figure :=
      {| title := "WER Progress";
         curves := curve_if_present "WER" plot_data
                   ++ curve_if_present "Substitutions" plot_data
                   ++ curve_if_present "Deletions" plot_data
                   ++ curve_if_present "Insertions" plot_data |} in
    {| written := written ++ [(wer_plot_path, wer_figure)];
       saved_plots := saved_plots ++ [wer_plot_path] |}
  else
    {| written := written; saved_plots := saved_plots |}.

End ModularMLLogParser.

(* ===================================================================== *)
(** ** watcher.py and log_watcher.py: [ModularMLLogWatcher] *)
(* ===================================================================== *)

(** What one call of [check_file_changes] meets in the file system: each of
    [open], [seek], [read], [tell] and the [close] that ends the [with]
    block returns or raises; [file_bytes] are the bytes of the log file at
    that time, and [decode] is the codec of the locale's encoding, which
    [open(..., 'r')] uses: it gives the text of a run of bytes, or [None]
    where the bytes are not valid in that encoding.  The codec keeps no
    state from one character to the next, as UTF-8, ASCII and the
    single-byte code pages do, so that the position [tell] returns at the
    end of the file is the number of its bytes. *)
Record log_io : Type := {
  open_error : option exn;
  seek_error : option exn;
  read_error : option exn;
  tell_error : option exn;
  close_error : option exn;
  file_bytes : string;
  decode : string -> option string
}.

Definition io_step (error : option exn) : outcome unit :=
  match error with
  | Some e => Raise e
  | None => Ret tt
  end.

(** [f.read()] after [f.seek(pos)]: the bytes from position [pos] to the
    end of the file, decoded, with the line ends translated.  No bytes give
    no text under every codec; bytes that cannot be decoded raise
    [UnicodeDecodeError]. *)
Definition f_read (io : log_io) (pos : nat) : outcome string :=
  match read_error io with
  | Some e => Raise e
  | None =>
      let rest := drop pos (file_bytes io) in
      if is_empty rest then Ret EmptyString
      else match decode io rest with
           | Some text => Ret (universal_newlines text)
           | None => Raise UnicodeDecodeError
           end
  end.

(** [f.tell()] after that [read]: the position in bytes, which is the end
    of the file, or [pos] when that lies beyond the end. *)
Definition f_tell (io : log_io) (pos : nat) : outcome nat :=
  match tell_error io with
  | Some e => Raise e
  | None => Ret (Nat.max pos (String.length (file_bytes io)))
  end.

(** One row of the metrics table; [current] and [best] are the numbers
    before they are printed with four decimals. *)
Record summary_row : Type := {
  row_metric : string;
  row_current : pyfloat;
  row_best : pyfloat
}.

(** The fields interpolated into the HTML body of a report. *)
Record document : Type := {
  doc_hours : Z;
  doc_minutes : Z;
  doc_rows : list summary_row;
  doc_log : string
}.

(** The two subjects a report is sent under: [ML Training Progress Report]
    in the loop, [Final Training Report] on interrupt. *)
Inductive report_kind : Type := Progress | Final.

(** One completed call of [send_email] and the boolean it returned. *)
Record delivery : Type := {
  kind : report_kind;
  body : document;
  accepted : bool
}.

(** What one pass through the body of [while True] meets outside the
    process.  An SMTP outcome stands for the whole [try] block of
    [send_email]: building the message, attaching the images of the plot
    directory, and the SMTP session. *)
Record cycle_env : Type := {
  env_log : log_io;
  env_now_due : Q;             (** [time.time()] in [should_send_email] *)
  env_now_body : Q;            (** [time.time()] in [format_email_body] *)
  env_smtp : outcome unit;     (** the SMTP session inside [send_email] *)
  env_now_sent : Q;            (** [time.time()] after a successful send *)
  env_sleep : outcome unit;    (** [time.sleep] that ends the [try] block *)
  env_now_final : Q;           (** the clock in the interrupt handler *)
  env_smtp_final : outcome unit;  (** SMTP in the interrupt handler *)
  env_sleep_retry : outcome unit  (** [time.sleep] in [except Exception] *)
}.

Inductive loop_signal : Type := Continue | Break.

Module ModularMLLogWatcher.

(** The attributes read or written by the watch loop.  The SMTP settings,
    [best_metrics] and [current_epoch] are only used by code outside the
    model. *)
Record t : Type := {
  log_file : string;
  check_interval : Z;
  email_interval : Z;
  plot_dir : string;
  last_position : nat;
  buffer : list string;
  last_email_time : Q;
  training_start_time : Q;
  parser : ModularMLLogParser.t
}.

(** [__init__]; [now] is what [time.time()] returns while the object is
    built. *)
Definition init (log_file : string) (check_interval email_interval : Z)
           (plot_dir : string) (now : Q) : t :=
  {| log_file := log_file; check_interval := check_interval;
     email_interval := email_interval; plot_dir := plot_dir;
     last_position := 0; buffer := []; last_email_time := now;
     training_start_time := now; parser := ModularMLLogParser.init |}.

Definition set_last_position (p : nat) (self : t) : t :=
  {| log_file := log_file self; check_interval := check_interval self;
     email_interval := email_interval self; plot_dir := plot_dir self;
     last_position := p; buffer := buffer self;
     last_email_time := last_email_time self;
     training_start_time := training_start_time self;
     parser := parser self |}.

Definition set_buffer (b : list string) (self : t) : t :=
  {| log_file := log_file self; check_interval := check_interval self;
     email_interval := email_interval self; plot_dir := plot_dir self;
     last_position := last_position self; buffer := b;
     last_email_time := last_email_time self;
     training_start_time := training_start_time self;
     parser := parser self |}.

Definition set_last_email_time (now : Q) (self : t) : t :=
  {| log_file := log_file self; check_interval := check_interval self;
     email_interval := email_interval self; plot_dir := plot_dir self;
     last_position := last_position self; buffer := buffer self;
     last_email_time := now;
     training_start_time := training_start_time self;
     parser := parser self |}.

Definition set_parser (p : ModularMLLogParser.t) (self : t) : t :=
  {| log_file := log_file self; check_interval := check_interval self;
     email_interval := email_interval self; plot_dir := plot_dir self;
     last_position := last_position self; buffer := buffer self;
     last_email_time := last_email_time self;
     training_start_time := training_start_time self;
     parser := p |}.

Definition add_custom_metric (metric : string) (pattern : regex) (self : t)
  : t :=
  set_parser (ModularMLLogParser.add_custom_metric metric pattern (parser self))
             self.

(** The body of the [with] block of [check_file_changes]. *)
Definition check_file_changes_with (io : log_io) : M t (option string) :=
  pos <- gets last_position ;;
  lift (io_step (seek_error io)) ;;;
  new_content <- lift (f_read io pos) ;;
  if negb (is_empty new_content) then
    p <- lift (f_tell io pos) ;;
    modify (set_last_position p) ;;;
    b <- gets buffer ;;
    modify (set_buffer (b ++ [new_content])) ;;;
    ret (Some new_content)
  else ret None.

(** The [try] block of [check_file_changes]: the file is opened, the body
    of the [with] block runs, and the file is closed on the way out of
    it, also when the body has raised. *)
Definition check_file_changes_try (io : log_io) : M t (option string) :=
  lift (io_step (open_error io)) ;;;
  with_exit (io_step (close_error io)) (check_file_changes_with io).

Definition check_file_changes (io : log_io) : M t (option string) :=
  try_except_Exception (check_file_changes_try io) (fun _ => ret None).

Definition should_send_email (now : Q) (self : t) : bool :=
  Qle_bool (inject_Z (email_interval self)) (now - last_email_time self).

(** [process_buffer] of [MLLogWatcher]; [ModularMLLogWatcher] inherits it. *)
Definition process_buffer : M t unit := ret tt.

(** [values[-1]] of a non-empty list. *)
Definition last_value (values : series) : pyfloat := last values NaN.

(** The loop that builds [metrics_summary]. *)
Fixpoint metrics_summary (items : Dict.dict series) : list summary_row :=
  match items with
  | [] => []
  | (metric, values) :: rest =>
      match values with
      | [] => metrics_summary rest
      | first :: others =>
          {| row_metric := metric;
             row_current := last_value values;
             row_best := if py_in "loss" (lower metric)
                         then min_from first others
                         else max_from first others |}
          :: metrics_summary rest
      end
  end.

Definition format_email_body (now : Q) (new_content : string) (self : t)
  : document :=
  let plot_data :=
    MetricPluginManager.get_all_plot_data
      (ModularMLLogParser.plugin_manager (parser self)) in
  let duration := (now - training_start_time self)%Q in
  let hours := Qfloor (duration / 3600) in
  let minutes := Qfloor ((duration - 3600 * inject_Z hours) / 60) in
  {| doc_hours := hours; doc_minutes := minutes;
     doc_rows := metrics_summary plot_data;
     doc_log := new_content |}.

(** The process together with the record of the calls of [send_email] that
    have returned. *)
Record world : Type := {
  self : t;
  outbox : list delivery
}.

Definition on_self {A} (m : M t A) : M world A :=
  on_field self (fun me w => {| self := me; outbox := outbox w |}) m.

Definition record_delivery (d : delivery) (w : world) : world :=
  {| self := self w; outbox := outbox w ++ [d] |}.

(** [send_email]: whatever [Exception] the SMTP session raises becomes the
    result [False]. *)
Definition send_email (smtp : outcome unit) (k : report_kind)
           (email_body : document) : M world bool :=
  sent <- try_except_Exception (lift smtp ;;; ret true) (fun _ => ret false) ;;
  modify (record_delivery
            {| kind := k; body := email_body; accepted := sent |}) ;;;
  ret sent.

(** The truth value of an [Optional[str]]. *)
Definition truthy_text (o : option string) : bool :=
  match o with
  | Some c => negb (is_empty c)
  | None => false
  end.

(** The [try] block of the loop in [watch]. *)
Definition watch_try (env : cycle_env) : M world unit :=
  new_content <- on_self (check_file_changes (env_log env)) ;;
  (if truthy_text new_content then on_self process_buffer else ret tt) ;;;
  me <- gets self ;;
  (if truthy (buffer me) && should_send_email (env_now_due env) me then
     let email_body :=
       format_email_body (env_now_body env) (join (buffer me)) me in
     sent <- send_email (env_smtp env) Progress email_body ;;
     if sent then
       on_self (modify (set_buffer [])) ;;;
       on_self (modify (set_last_email_time (env_now_sent env)))
     else ret tt
   else ret tt) ;;;
  lift (env_sleep env).

(** [except KeyboardInterrupt]: one last report, its result ignored. *)
Definition on_interrupt (env : cycle_env) : M world loop_signal :=
  me <- gets self ;;
  (if truthy (buffer me) then
     let email_body :=
       format_email_body (env_now_final env) (join (buffer me)) me in
     send_email (env_smtp_final env) Final email_body ;;; ret tt
   else ret tt) ;;;
  ret Break.

(** [except Exception] *)
Definition on_error (env : cycle_env) : M world loop_signal :=
  lift (env_sleep_retry env) ;;; ret Continue.

(** One pass through the body of [while True]. *)
Definition watch_cycle (env : cycle_env) : M world loop_signal :=
  fun w =>
    match watch_try env w with
    | (w', Ret _) => (w', Ret Continue)
    | (w', Raise KeyboardInterrupt) => on_interrupt env w'
    | (w', Raise _) => on_error env w'
    end.

(** The loop of [watch], run against the environments of its successive
    passes; [Continue] is returned when these run out before the loop has
    ended. *)
Fixpoint watch (envs : list cycle_env) : M world loop_signal :=
  match envs with
  | [] => ret Continue
  | env :: rest =>
      signal <- watch_cycle env ;;
      match signal with
      | Continue => watch rest
      | Break => ret Break
      end
  end.

End ModularMLLogWatcher.

(* ===================================================================== *)
(** ** watcher.py: the mail settings of [MLLogWatcher] *)
(* ===================================================================== *)

Module MLLogWatcher.

(** The three attributes that [setup_email_config] reads and writes. *)
Record email_settings : Type := {
  sender_email : option string;
  sender_password : option string;
  recipient_email : option string
}.

(** [all([self.sender_email, self.sender_password, self.recipient_email])]:
    [None] and the empty string count as false. *)
Definition all_given (self : email_settings) : bool :=
  ModularMLLogWatcher.truthy_text (sender_email self)
  && ModularMLLogWatcher.truthy_text (sender_password self)
  && ModularMLLogWatcher.truthy_text (recipient_email self).

(** [os.getenv(key)] *)
Definition getenv (environ : Dict.dict string) (key : string)
  : option string :=
  Dict.get key environ.

Definition from_environment (environ : Dict.dict string)
           (self : email_settings) : email_settings :=
  {| sender_email := getenv environ "EMAIL_SENDER";
     sender_password := getenv environ "EMAIL_PASSWORD";
     recipient_email := getenv environ "EMAIL_RECIPIENT" |}.

Definition setup_email_config (environ : Dict.dict string)
  : M email_settings unit :=
  complete <- gets all_given ;;
  (if negb complete then modify (from_environment environ) else ret tt) ;;;
  complete <- gets all_given ;;
  if negb complete then raise ValueError else ret tt.

End MLLogWatcher.

(* ===================================================================== *)
(** ** Notions used to state the properties *)
(* ===================================================================== *)

(** [new] is [old] with items appended. *)
Definition extends (old new : series) : Prop :=
  exists extra, new = old ++ extra.

(** The same parser, each of its series extended. *)
Definition grows (old new : BaseMetricParser.t) : Prop :=
  match old, new with
  | BaseMetricParser.Standard p, BaseMetricParser.Standard p' =>
      StandardMetricParser.metric_name p' = StandardMetricParser.metric_name p
      /\ StandardMetricParser.pattern p' = StandardMetricParser.pattern p
      /\ extends (StandardMetricParser.values p)
                 (StandardMetricParser.values p')
  | BaseMetricParser.WER p, BaseMetricParser.WER p' =>
      extends (WERMetricParser.wer_values p) (WERMetricParser.wer_values p')
      /\ extends (WERMetricParser.substitutions p)
                 (WERMetricParser.substitutions p')
      /\ extends (WERMetricParser.deletions p) (WERMetricParser.deletions p')
      /\ extends (WERMetricParser.insertions p)
                 (WERMetricParser.insertions p')
  | _, _ => False
  end.

(** The items a call of [parse] on [line] hands to [parse_line]. *)
Definition result_of (line : string) (parser : BaseMetricParser.t)
  : list MetricResult :=
  match snd (BaseMetricParser.parse line parser) with
  | Ret (Some r) => [r]
  | _ => []
  end.

Definition option_items {A} (o : option A) : list A :=
  match o with
  | Some a => [a]
  | None => []
  end.

(** The number that [parse] reads for a pattern in a lower-cased line, when
    the pattern matches and [float] accepts the captured text. *)
Definition captured_number (pat : regex) (line : string) : option pyfloat :=
  match re_search pat line with
  | Some m => py_float (group1 m)
  | None => None
  end.

(** [c] is a character of [s]. *)
Fixpoint occurs (c : ascii) (s : string) : bool :=
  match s with
  | EmptyString => false
  | String d s' => Ascii.eqb c d || occurs c s'
  end.

(** All pieces of a pattern, in the order they are written. *)
Definition pieces (r : regex) : list piece :=
  re_before r ++ re_group r ++ re_after r.

(** The watcher after [check_file_changes] has been called once for each
    state of the file system in [ios]. *)
Definition after_polls (ios : list log_io) (self : ModularMLLogWatcher.t)
  : ModularMLLogWatcher.t :=
  fold_left (fun self io =>
               fst (ModularMLLogWatcher.check_file_changes io self))
            ios self.

(** From one call to the next the log file only has bytes appended to what
    it held before; [text] is what it held before the first call. *)
Fixpoint only_grows (text : string) (ios : list log_io) : Prop :=
  match ios with
  | [] => True
  | io :: rest =>
      (exists added : string, file_bytes io = (text ++ added)%string)
      /\ only_grows (file_bytes io) rest
  end.

(** The bytes of the log file at the last call, [text] when there is
    none. *)
Fixpoint last_text (text : string) (ios : list log_io) : string :=
  match ios with
  | [] => text
  | io :: rest => last_text (file_bytes io) rest
  end.

(** A log file that holds [text], in an encoding that maps each byte to
    the character of that code, and can be read without error. *)
Definition readable (text : string) : log_io :=
  {| open_error := None; seek_error := None; read_error := None;
     tell_error := None; close_error := None; file_bytes := text;
     decode := latin_1 |}.


(** The text that a call reads from a run of bytes. *)
Definition reading (dec : string -> option string) (bytes text : string)
  : Prop :=
  exists decoded, dec bytes = Some decoded
                  /\ text = universal_newlines decoded.

(** The pieces of the buffer are the readings of consecutive runs of bytes
    that, laid end to end, make up the file from its start to the cursor. *)
Definition tiles (dec : string -> option string) (bytes : string)
           (self : ModularMLLogWatcher.t) : Prop :=
  ModularMLLogWatcher.last_position self <= String.length bytes
  /\ exists runs,
       join runs = take (ModularMLLogWatcher.last_position self) bytes
       /\ Forall2 (reading dec) runs (ModularMLLogWatcher.buffer self).

(** A pass in which nothing fails or interrupts: the log holds [text],
    every clock reading is [now], and mail is accepted. *)
Definition calm (text : string) (now : Q) : cycle_env :=
  {| env_log := readable text;
     env_now_due := now; env_now_body := now; env_smtp := Ret tt;
     env_now_sent := now; env_sleep := Ret tt; env_now_final := now;
     env_smtp_final := Ret tt; env_sleep_retry := Ret tt |}.

(** The same pass with another outcome of the SMTP session. *)
Definition with_smtp (smtp : outcome unit) (env : cycle_env) : cycle_env :=
  {| env_log := env_log env;
     env_now_due := env_now_due env; env_now_body := env_now_body env;
     env_smtp := smtp;
     env_now_sent := env_now_sent env; env_sleep := env_sleep env;
     env_now_final := env_now_final env;
     env_smtp_final := env_smtp_final env;
     env_sleep_retry := env_sleep_retry env |}.


(** A watcher as [main] builds it with the default intervals, started at
    time 0, and no mail handed over yet. *)
Definition new_world : ModularMLLogWatcher.world :=
  {| ModularMLLogWatcher.self :=
       ModularMLLogWatcher.init "train.log" 30 30 "training_plots" 0;
     ModularMLLogWatcher.outbox := [] |}.

(** No file operation of the call raises. *)
Definition io_ok (io : log_io) : Prop :=
  open_error io = None /\ seek_error io = None
  /\ read_error io = None /\ tell_error io = None
  /\ close_error io = None.

(* ===================================================================== *)
(** * Properties *)
(* ===================================================================== *)

(** ** Text *)

Lemma length_append (t s : string) :
  String.length (t ++ s) = String.length t + String.length s.
Proof. induction t as [|c t IH]; simpl; [reflexivity | now rewrite IH]. Qed.

Lemma take_prefix (t s : string) :
  take (String.length (t ++ s) - String.length s) (t ++ s) = t.
Proof.
  rewrite length_append.
  replace (String.length t + String.length s - String.length s)
    with (String.length t) by lia.
  induction t as [|c t IH]; simpl.
  - now destruct s.
  - now rewrite IH.
Qed.

Lemma digit_not_space (c : ascii) :
  is_digit c = true -> float_space c = false.
Proof.
  unfold is_digit, float_space, between. generalize (code c). intros n H.
  apply andb_true_iff in H. destruct H as [H1 H2].
  apply Nat.leb_le in H1. apply Nat.leb_le in H2.
  repeat rewrite orb_false_iff. repeat split.
  - apply andb_false_iff. right. apply Nat.leb_gt. lia.
  - apply Nat.eqb_neq. lia.
  - apply Nat.eqb_neq. lia.
  - apply Nat.eqb_neq. lia.
Qed.

Lemma digit_not_char (c d : ascii) :
  is_digit c = true -> is_digit d = false -> Ascii.eqb c d = false.
Proof.
  intros Hc Hd. destruct (Ascii.eqb_spec c d) as [->|]; [congruence | reflexivity].
Qed.

(** ** The pattern matcher *)

Section MatcherFacts.
Variable R : Type.

(** A successful greedy repetition has consumed characters of the set
    only, and the continuation succeeded on what is left. *)
Lemma greedy_inv (cs : charset) (s : string) (k : string -> option R)
      (r : R) :
  greedy cs s k = Some r ->
  exists t s2 : string,
    s = (t ++ s2)%string /\ all_chars (mem cs) t = true /\ k s2 = Some r.
Proof.
  induction s as [|c s IH]; simpl; intros H.
  - exists EmptyString, EmptyString. auto.
  - destruct (mem cs c) eqn:Ec.
    + destruct (greedy cs s k) as [r'|] eqn:Eg.
      * destruct (IH H) as (t & s2 & -> & Ht & Hk).
        exists (String c t), s2. simpl. rewrite Ec, Ht. auto.
      * exists EmptyString, (String c s). auto.
    + exists EmptyString, (String c s). auto.
Qed.

Lemma match_seq_inv (ps : list piece) (s : string)
      (k : string -> option R) (r : R) :
  match_seq ps s k = Some r ->
  exists t s2 : string, s = (t ++ s2)%string /\ k s2 = Some r.
Proof.
  revert s k. induction ps as [|p ps IH]; simpl; intros s k H.
  - exists EmptyString, s. auto.
  - destruct p as [c|cs|cs]; destruct s as [|d s]; try discriminate.
    + destruct (Ascii.eqb c d); [|discriminate].
      destruct (IH _ _ H) as (t & s2 & -> & Hk).
      exists (String d t), s2. auto.
    + destruct (mem cs d); [|discriminate].
      destruct (IH _ _ H) as (t & s2 & -> & Hk).
      exists (String d t), s2. auto.
    + destruct (mem cs d); [|discriminate].
      destruct (greedy_inv _ _ _ H) as (t & s1 & -> & _ & H1).
      destruct (IH _ _ H1) as (t' & s2 & -> & Hk).
      exists (String d (t ++ t')%string), s2. simpl. split; [|assumption].
      f_equal. clear. induction t; simpl; congruence.
Qed.
End MatcherFacts.

(** The text captured by a group of the form [(set+)] at the end of the
    pattern is not empty and made of characters of the set. *)
Lemma match_at_group_plus (r : regex) (cs : charset) (s : string) (m : Match) :
  re_group r = [Plus cs] -> re_after r = [] ->
  match_at r s = Some m ->
  group1 m <> EmptyString /\ all_chars (mem cs) (group1 m) = true.
Proof.
  intros Hg Ha H. unfold match_at in H. rewrite Hg, Ha in H.
  apply match_seq_inv in H. destruct H as (_ & s1 & _ & H).
  cbn [match_seq] in H. destruct s1 as [|d s1]; [discriminate|].
  destruct (mem cs d) eqn:Ed; [|discriminate].
  apply greedy_inv in H. destruct H as (t & s2 & -> & Ht & H).
  injection H as <-. cbn [group1].
  pose proof (take_prefix (String d t) s2) as E. simpl in E |- *.
  rewrite E. simpl. rewrite Ed, Ht.
  split; [discriminate | reflexivity].
Qed.

Lemma re_search_group_plus (r : regex) (cs : charset) (s : string) (m : Match) :
  re_group r = [Plus cs] -> re_after r = [] ->
  re_search r s = Some m ->
  group1 m <> EmptyString /\ all_chars (mem cs) (group1 m) = true.
Proof.
  intros Hg Ha. induction s as [|c s IH]; simpl; intros H.
  - destruct (match_at r EmptyString) eqn:E; [|discriminate].
    injection H as ->. eapply match_at_group_plus; eauto.
  - destruct (match_at r (String c s)) eqn:E.
    + injection H as ->. eapply match_at_group_plus; eauto.
    + auto.
Qed.

(** ** [float] *)

Lemma lstrip_digits (s : string) :
  all_chars is_digit s = true -> lstrip s = s.
Proof.
  destruct s as [|c s]; simpl; [reflexivity|]. intros H.
  apply andb_true_iff in H. destruct H as [Hc _].
  now rewrite (digit_not_space _ Hc).
Qed.

Lemma rstrip_digits (s : string) :
  all_chars is_digit s = true -> rstrip s = s.
Proof.
  induction s as [|c s IH]; simpl; [reflexivity|]. intros H.
  apply andb_true_iff in H. destruct H as [Hc Hs].
  now rewrite (digit_not_space _ Hc), IH.
Qed.

Lemma drop_underscores_digits (prev : ascii) (s : string) :
  all_chars is_digit s = true ->
  (s = EmptyString -> Ascii.eqb prev "_" = false) ->
  drop_underscores prev s = Some s.
Proof.
  revert prev. induction s as [|c s IH]; simpl; intros prev H Hp.
  - now rewrite Hp.
  - apply andb_true_iff in H. destruct H as [Hc Hs].
    rewrite (digit_not_char c "_" Hc eq_refl), Hc, andb_false_r.
    rewrite IH; [reflexivity | assumption |].
    intros _. now apply digit_not_char.
Qed.

Lemma span_digits_all (s : string) :
  all_chars is_digit s = true -> span_digits s = (s, EmptyString).
Proof.
  induction s as [|c s IH]; simpl; [reflexivity|]. intros H.
  apply andb_true_iff in H. destruct H as [Hc Hs].
  now rewrite Hc, IH.
Qed.

(** [float] accepts every non-empty run of decimal digits. *)
Lemma py_float_digits (s : string) :
  s <> EmptyString -> all_chars is_digit s = true ->
  exists q, py_float s = Some (Fin q).
Proof.
  intros Hne Hd. unfold py_float.
  rewrite lstrip_digits, rstrip_digits by assumption.
  rewrite drop_underscores_digits by (assumption || contradiction).
  destruct s as [|c s]; [contradiction|].
  assert (Hc : is_digit c = true)
    by (simpl in Hd; apply andb_true_iff in Hd; tauto).
  assert (Hsign : split_sign (String c s) = (false, String c s)).
  { clear - Hc.
    destruct c as [[] [] [] [] [] [] [] []]; try reflexivity;
      vm_compute in Hc; discriminate. }
  rewrite Hsign. unfold read_decimal. rewrite span_digits_all by assumption.
  cbn [is_empty andb read_exponent]. eauto.
Qed.

(* ===================================================================== *)
(** ** [StandardMetricParser] *)
(* ===================================================================== *)

Module StandardFacts.
Import StandardMetricParser.

Lemma parse_no_match (p : t) (line : string) :
  re_search (pattern p) (lower line) = None ->
  parse line p = (p, Ret None).
Proof.
  intros H. unfold parse, bind, gets. now rewrite H.
Qed.

(** C5: when the pattern matches a line and the captured text reads as a
    number [v], [parse] returns a result carrying [v] under the parser's
    metric name, and the series is the former series with [v] appended at
    its end; name and pattern are untouched. *)
Theorem parse_appends_value (p : t) (line : string) (m : Match) (v : pyfloat) :
  re_search (pattern p) (lower line) = Some m ->
  py_float (group1 m) = Some v ->
  exists p' r,
    parse line p = (p', Ret (Some r))
    /\ values p' = values p ++ [v]
    /\ value r = v /\ name r = metric_name p
    /\ metric_name p' = metric_name p /\ pattern p' = pattern p.
Proof.
  intros Hm Hv. unfold parse, bind, gets, lift, float, modify, ret.
  rewrite Hm, Hv. cbn.
  eexists _, _. repeat split.
Qed.

(** C2 (what the code does): when the pattern matches but the captured
    text does not read as a number, [parse] raises [ValueError]; the series
    is left as it was. *)
Theorem parse_malformed_number_raises (p : t) (line : string) (m : Match) :
  re_search (pattern p) (lower line) = Some m ->
  py_float (group1 m) = None ->
  parse line p = (p, Raise ValueError).
Proof.
  intros Hm Hv. unfold parse, bind, gets, lift, float.
  now rewrite Hm, Hv.
Qed.

End StandardFacts.

(** The scenario of the specification: one result named ["Loss"] with value
    0.532, and the series [[0.532]]. *)
Example loss_scenario :
  StandardMetricParser.parse "epoch 1 loss: 0.532"
    (StandardMetricParser.init "Loss" (decimal_after "loss"))
  = (StandardMetricParser.values_append (Fin (133 # 250))
       (StandardMetricParser.init "Loss" (decimal_after "loss")),
     Ret (Some {| name := "Loss"; value := Fin (133 # 250); epoch := None;
                  step := None; extra_info := None |})).
Proof. reflexivity. Qed.

Lemma parse_appends_value_witness :
  exists p' r,
    StandardMetricParser.parse "Epoch 1 Loss: 0.532"
      (StandardMetricParser.init "Loss" (decimal_after "loss"))
    = (p', Ret (Some r))
    /\ StandardMetricParser.values p' = [] ++ [Fin (133 # 250)]
    /\ value r = Fin (133 # 250) /\ name r = "Loss"
    /\ StandardMetricParser.metric_name p' = "Loss"
    /\ StandardMetricParser.pattern p' = decimal_after "loss".
Proof.
  apply (StandardFacts.parse_appends_value
           (StandardMetricParser.init "Loss" (decimal_after "loss"))
           "Epoch 1 Loss: 0.532" (m := {| group1 := "0.532" |}));
    reflexivity.
Defined.

(** A line on which the default loss pattern captures ["1.2.3"]. *)
Lemma parse_malformed_number_raises_witness :
  StandardMetricParser.parse "loss: 1.2.3"
    (StandardMetricParser.init "Loss" (decimal_after "loss"))
  = (StandardMetricParser.init "Loss" (decimal_after "loss"),
     Raise ValueError).
Proof.
  apply (StandardFacts.parse_malformed_number_raises
           (StandardMetricParser.init "Loss" (decimal_after "loss"))
           "loss: 1.2.3" (m := {| group1 := "1.2.3" |}));
    reflexivity.
Defined.

(** The exception leaves [parse_line] as well; the parsers registered after
    the failing one are not asked. *)
Example parse_line_malformed_number_raises :
  MetricPluginManager.parse_line "loss: 1.2.3"
    (ModularMLLogParser.plugin_manager ModularMLLogParser.init)
  = (ModularMLLogParser.plugin_manager ModularMLLogParser.init,
     Raise ValueError).
Proof. reflexivity. Qed.

(** The full stop that ends a sentence is captured with the number. *)
Example parse_sentence_end_raises :
  StandardMetricParser.parse "Training finished with loss: 0.25."
    (StandardMetricParser.init "Loss" (decimal_after "loss"))
  = (StandardMetricParser.init "Loss" (decimal_after "loss"),
     Raise ValueError).
Proof. reflexivity. Qed.

(* ===================================================================== *)
(** ** [WERMetricParser] *)
(* ===================================================================== *)

Module WERFacts.
Import WERMetricParser.

(** The three count patterns capture digits only, which [float] reads. *)
Lemma count_float (word line : string) (m : Match) :
  re_search (count_after word) line = Some m ->
  exists q, float (group1 m) = Ret (Fin q).
Proof.
  intros H.
  destruct (re_search_group_plus (count_after word) (cs := Digit) line
              eq_refl eq_refl H) as [Hne Hd].
  destruct (py_float_digits Hne Hd) as [q Hq].
  exists q. unfold float. now rewrite Hq.
Qed.

(** Without a match of the primary pattern the scan ends normally and its
    result has no ["wer"] entry. *)
Lemma scan_without_wer (line : string) :
  re_search (decimal_after "wer") line = None ->
  exists metrics,
    scan patterns line [] = Ret metrics /\ Dict.get "wer" metrics = None.
Proof.
  intros Hw. unfold patterns. cbn [scan]. rewrite Hw.
  destruct (re_search (count_after "substitutions") line) as [m1|] eqn:E1;
    [destruct (count_float _ _ E1) as [q1 ->]|];
  (destruct (re_search (count_after "deletions") line) as [m2|] eqn:E2;
    [destruct (count_float _ _ E2) as [q2 ->]|]);
  (destruct (re_search (count_after "insertions") line) as [m3|] eqn:E3;
    [destruct (count_float _ _ E3) as [q3 ->]|]);
  eexists; split; reflexivity.
Qed.

Lemma parse_without_wer (self : t) (line : string) :
  re_search (decimal_after "wer") (lower line) = None ->
  parse line self = (self, Ret None).
Proof.
  intros Hw. destruct (scan_without_wer _ Hw) as (metrics & Hs & Hg).
  unfold parse, bind, lift. now rewrite Hs, Hg.
Qed.

(** One call either leaves the parser as it is, or appends one value to the
    primary series and at most one to each count series. *)
Lemma parse_step (self : t) (line : string) :
  let self' := fst (parse line self) in
  self' = self
  \/ (length (wer_values self') = S (length (wer_values self))
      /\ length (substitutions self') <= S (length (substitutions self))
      /\ length (deletions self') <= S (length (deletions self))
      /\ length (insertions self') <= S (length (insertions self))).
Proof.
  unfold parse, bind, lift.
  destruct (scan patterns (lower line) []) as [metrics|e]; [|now left].
  destruct (Dict.get "wer" metrics) as [wer|]; [|now left].
  right. unfold append_if_seen, modify, ret.
  destruct (Dict.get "sub" metrics), (Dict.get "del" metrics),
    (Dict.get "ins" metrics); cbn; rewrite ?length_app; cbn; lia.
Qed.

Lemma after_calls_bounded (lines : list string) (self : t) :
  counts_bounded self -> counts_bounded (after_calls lines self).
Proof.
  revert self. induction lines as [|line lines IH]; intros self H.
  - exact H.
  - apply IH. unfold counts_bounded in *.
    destruct (parse_step self line) as [-> | Hs]; [assumption | lia].
Qed.

(** C10: a call on a line without a match of the primary pattern returns
    [None] and changes no series, whatever the count patterns find; and a
    parser that starts empty has, after any sequence of calls, count series
    no longer than the primary series. *)
Theorem counts_follow_primary :
  (forall (self : t) (line : string),
      re_search (decimal_after "wer") (lower line) = None ->
      parse line self = (self, Ret None))
  /\ (forall lines : list string,
         let self := after_calls lines init in
         length (substitutions self) <= length (wer_values self)
         /\ length (deletions self) <= length (wer_values self)
         /\ length (insertions self) <= length (wer_values self)).
Proof.
  split.
  - exact parse_without_wer.
  - intros lines. apply after_calls_bounded. cbv. auto.
Qed.

End WERFacts.

(** A line with counts but no rate: nothing is appended. *)
Lemma counts_follow_primary_witness :
  re_search (decimal_after "wer") (lower "Substitutions: 3 Deletions: 1") = None
  /\ re_search (count_after "substitutions")
       (lower "Substitutions: 3 Deletions: 1") = Some {| group1 := "3" |}
  /\ WERMetricParser.parse "Substitutions: 3 Deletions: 1" WERMetricParser.init
     = (WERMetricParser.init, Ret None).
Proof.
  split; [reflexivity | split; [reflexivity |]].
  apply (proj1 WERFacts.counts_follow_primary). reflexivity.
Defined.

(** The scenario of the specification for the composite parser. *)
Example wer_scenario :
  WERMetricParser.parse "wer: 0.21 substitutions: 3 deletions: 1"
    WERMetricParser.init
  = ({| WERMetricParser.wer_values := [Fin (21 # 100)];
        WERMetricParser.substitutions := [Fin (3 # 1)];
        WERMetricParser.deletions := [Fin (1 # 1)];
        WERMetricParser.insertions := [] |},
     Ret (Some {| name := "WER"; value := Fin (21 # 100); epoch := None;
                  step := None;
                  extra_info :=
                    Some [ ("substitutions", Some (Fin (3 # 1)));
                           ("deletions", Some (Fin (1 # 1)));
                           ("insertions", None) ] |})).
Proof. reflexivity. Qed.

(* ===================================================================== *)
(** ** [MetricPluginManager] *)
(* ===================================================================== *)

Module ManagerFacts.
Import MetricPluginManager.

Lemma base_parse_no_match (parser : BaseMetricParser.t) (line : string) :
  (forall r, In r (BaseMetricParser.patterns_of parser) ->
             re_search r (lower line) = None) ->
  BaseMetricParser.parse line parser = (parser, Ret None).
Proof.
  intros H. destruct parser as [p|p]; unfold BaseMetricParser.parse.
  - rewrite StandardFacts.parse_no_match; [reflexivity|].
    apply H. now left.
  - rewrite WERFacts.parse_without_wer; [reflexivity|].
    apply H. now left.
Qed.

Lemma parse_each_no_match (line : string) (todo : list BaseMetricParser.t)
      (results : list MetricResult) :
  (forall parser r, In parser todo ->
                    In r (BaseMetricParser.patterns_of parser) ->
                    re_search r (lower line) = None) ->
  parse_each line todo results = (todo, Ret results).
Proof.
  revert results. induction todo as [|parser rest IH]; intros results H.
  - reflexivity.
  - cbn [parse_each]. rewrite base_parse_no_match.
    + rewrite IH; [reflexivity|]. intros q r Hq. apply H. now right.
    + intros r. apply H. now left.
Qed.

(** C4: when no pattern of any registered parser matches the line,
    [parse_line] returns the empty list and the manager, with every parser
    and every series in it, is what it was before the call. *)
Theorem parse_line_no_match (self : t) (line : string) :
  (forall parser r, In parser (parsers self) ->
                    In r (BaseMetricParser.patterns_of parser) ->
                    re_search r (lower line) = None) ->
  parse_line line self = (self, Ret []).
Proof.
  intros H. unfold parse_line. rewrite parse_each_no_match by assumption.
  now destruct self.
Qed.

End ManagerFacts.

Lemma parse_line_no_match_witness :
  MetricPluginManager.parse_line "Starting epoch 3 of 10"
    (ModularMLLogParser.plugin_manager ModularMLLogParser.init)
  = (ModularMLLogParser.plugin_manager ModularMLLogParser.init, Ret []).
Proof.
  apply ManagerFacts.parse_line_no_match.
  intros parser r Hp Hr. cbn in Hp.
  repeat (destruct Hp as [<- | Hp]; [cbn in Hr; intuition (subst; reflexivity)|]).
  contradiction.
Defined.

(* ===================================================================== *)
(** ** [dict] *)
(* ===================================================================== *)

Module DictFacts.
Import Dict.

Section WithValues.
Variable V : Type.
Implicit Types (d src : dict V) (k : string) (v : V).

Lemma keys_set k v d k' :
  In k' (keys (set k v d)) <-> k' = k \/ In k' (keys d).
Proof.
  induction d as [|[k0 v0] d IH]; cbn.
  - intuition.
  - destruct (String.eqb_spec k k0) as [->|Hne]; cbn.
    + intuition.
    + rewrite IH. intuition.
Qed.

Lemma nodup_set k v d : NoDup (keys d) -> NoDup (keys (set k v d)).
Proof.
  induction d as [|[k0 v0] d IH]; cbn; intros H.
  - constructor; [intros [] | constructor].
  - destruct (String.eqb_spec k k0) as [->|Hne]; cbn.
    + exact H.
    + inversion H as [|? ? Hnin Hd]; subst. constructor; [|auto].
      intros Hin. apply (keys_set k v d k0) in Hin.
      destruct Hin as [->|Hin]; [congruence | contradiction].
Qed.

Lemma get_set_same k v d : get k (set k v d) = Some v.
Proof.
  induction d as [|[k0 v0] d IH]; cbn.
  - now rewrite String.eqb_refl.
  - destruct (String.eqb_spec k k0) as [->|Hne]; cbn.
    + now rewrite String.eqb_refl.
    + destruct (String.eqb_spec k k0); [contradiction | exact IH].
Qed.

Lemma get_set_other k k' v d : k' <> k -> get k' (set k v d) = get k' d.
Proof.
  intros Hne. induction d as [|[k0 v0] d IH]; cbn.
  - destruct (String.eqb_spec k' k); [contradiction | reflexivity].
  - destruct (String.eqb_spec k k0) as [->|Hk]; cbn.
    + destruct (String.eqb_spec k' k0); [contradiction | reflexivity].
    + now rewrite IH.
Qed.

Lemma mem_set k k' v d : mem k d = true -> mem k (set k' v d) = true.
Proof.
  unfold mem. destruct (String.eqb_spec k k') as [->|Hne].
  - now rewrite get_set_same.
  - now rewrite get_set_other.
Qed.

Lemma get_In k v d : get k d = Some v -> In (k, v) d.
Proof.
  induction d as [|[k0 v0] d IH]; cbn; [discriminate|].
  destruct (String.eqb_spec k k0) as [->|Hne].
  - intros [= ->]. now left.
  - auto.
Qed.

Lemma nodup_update d src : NoDup (keys d) -> NoDup (keys (update d src)).
Proof.
  unfold update. revert d.
  induction src as [|[k v] src IH]; cbn; intros d H; [exact H|].
  apply IH. now apply nodup_set.
Qed.

Lemma mem_update_l k d src : mem k d = true -> mem k (update d src) = true.
Proof.
  unfold update. revert d.
  induction src as [|[k0 v0] src IH]; cbn; intros d H; [exact H|].
  apply IH. now apply mem_set.
Qed.

Lemma mem_update_r k d src : mem k src = true -> mem k (update d src) = true.
Proof.
  unfold update. revert d.
  induction src as [|[k0 v0] src IH]; intros d H; [discriminate|].
  cbn [fold_left fst snd]. unfold mem in H. cbn in H.
  destruct (String.eqb_spec k k0) as [->|Hne].
  - apply (mem_update_l k0 (set k0 v0 d) src).
    unfold mem. now rewrite get_set_same.
  - apply IH. exact H.
Qed.
End WithValues.

End DictFacts.

(* ===================================================================== *)
(** ** Merged plot data and [generate_training_plots] *)
(* ===================================================================== *)

Module PlotFacts.
Import MetricPluginManager.

Lemma merge_nodup (ps : list BaseMetricParser.t) (acc : Dict.dict series) :
  NoDup (Dict.keys acc) ->
  NoDup (Dict.keys
           (fold_left (fun plot_data parser =>
                         Dict.update plot_data
                                     (BaseMetricParser.get_plot_data parser))
                      ps acc)).
Proof.
  revert acc. induction ps as [|p ps IH]; cbn; intros acc H; [exact H|].
  apply IH. now apply DictFacts.nodup_update.
Qed.

(** The keys of the merged mapping are pairwise different. *)
Lemma get_all_plot_data_nodup (self : t) :
  NoDup (Dict.keys (get_all_plot_data self)).
Proof. apply merge_nodup. constructor. Qed.

Lemma merge_mem (k : string) (ps : list BaseMetricParser.t)
      (acc : Dict.dict series) :
  Dict.mem k acc = true
  \/ (exists p, In p ps /\ Dict.mem k (BaseMetricParser.get_plot_data p) = true) ->
  Dict.mem k
    (fold_left (fun plot_data parser =>
                  Dict.update plot_data (BaseMetricParser.get_plot_data parser))
               ps acc) = true.
Proof.
  revert acc. induction ps as [|p ps IH]; cbn; intros acc H.
  - destruct H as [H | (p & [] & _)]. exact H.
  - apply IH. destruct H as [H | (q & [<- | Hq] & Hk)].
    + left. now apply DictFacts.mem_update_l.
    + left. now apply DictFacts.mem_update_r.
    + right. eauto.
Qed.

(** The composite parser gives a ["WER"] entry whatever its series hold. *)
Lemma wer_entry_present (p : WERMetricParser.t) :
  Dict.mem "WER" (WERMetricParser.get_plot_data p) = true.
Proof.
  unfold WERMetricParser.get_plot_data.
  destruct (truthy (WERMetricParser.substitutions p)),
    (truthy (WERMetricParser.deletions p)),
    (truthy (WERMetricParser.insertions p)); reflexivity.
Qed.

(** With a composite parser registered, both files are written and both
    paths returned, whatever the series hold. *)
Lemma generate_training_plots_both (save_dir : string)
      (self : ModularMLLogParser.t) (p : WERMetricParser.t) :
  In (BaseMetricParser.WER p)
     (parsers (ModularMLLogParser.plugin_manager self)) ->
  ModularMLLogParser.saved_plots
    (ModularMLLogParser.generate_training_plots save_dir self)
  = [path_join save_dir "main_metrics.png";
     path_join save_dir "wer_progress.png"].
Proof.
  intros H. unfold ModularMLLogParser.generate_training_plots.
  unfold get_all_plot_data. rewrite merge_mem; [reflexivity|].
  right. exists (BaseMetricParser.WER p). split; [exact H|].
  apply wer_entry_present.
Qed.

(** C3 (what the code does): on a parser that has not seen a single line the
    ["WER"] series is empty, and still [generate_training_plots] writes
    [wer_progress.png], holding one empty curve, and returns both paths. *)
Theorem generate_training_plots_empty_wer (save_dir : string) :
  let self := ModularMLLogParser.init in
  Dict.get "WER" (get_all_plot_data (ModularMLLogParser.plugin_manager self))
  = Some []
  /\ ModularMLLogParser.saved_plots
       (ModularMLLogParser.generate_training_plots save_dir self)
     = [path_join save_dir "main_metrics.png";
        path_join save_dir "wer_progress.png"]
  /\ map snd (skipn 1 (ModularMLLogParser.written
                         (ModularMLLogParser.generate_training_plots
                            save_dir self)))
     = [ {| title := "WER Progress"; curves := [("WER", [])] |} ].
Proof. repeat split. Qed.

End PlotFacts.

(* ===================================================================== *)
(** ** Order of [float] values, [min] and [max] *)
(* ===================================================================== *)

Module OrderFacts.

Lemma lt_irrefl (a : pyfloat) : lt a a = false.
Proof.
  destruct a as [q| | |]; cbn; try reflexivity.
  apply negb_false_iff, Qle_bool_iff, Qle_refl.
Qed.

(** Away from NaN the order is total: what does not compare below [b] is
    at least [b]. *)
Lemma not_lt_le (a b : pyfloat) :
  is_nan a = false -> is_nan b = false -> lt a b = false -> le b a = true.
Proof.
  destruct a as [x| | |], b as [y| | |]; cbn; try discriminate; try reflexivity.
  intros _ _ H. now apply negb_false_iff in H.
Qed.

(** [x < b] and not [v < b] exclude [v < x]. *)
Lemma lt_below (x b v : pyfloat) :
  lt x b = true -> lt v b = false -> lt v x = false.
Proof.
  destruct x as [x| | |], b as [b| | |], v as [v| | |]; cbn;
    try discriminate; try reflexivity.
  intros Hxb Hvb.
  apply negb_true_iff in Hxb. apply negb_false_iff in Hvb.
  apply negb_false_iff. apply Qle_bool_iff. apply Qle_bool_iff in Hvb.
  destruct (Qlt_le_dec x b) as [Hlt | Hle].
  - apply Qlt_le_weak. eapply Qlt_le_trans; eassumption.
  - apply Qle_bool_iff in Hle. congruence.
Qed.

(** [b < x] and not [b < v] exclude [x < v]. *)
Lemma lt_above (x b v : pyfloat) :
  lt b x = true -> lt b v = false -> lt x v = false.
Proof.
  destruct x as [x| | |], b as [b| | |], v as [v| | |]; cbn;
    try discriminate; try reflexivity.
  intros Hbx Hbv.
  apply negb_true_iff in Hbx. apply negb_false_iff in Hbv.
  apply negb_false_iff. apply Qle_bool_iff. apply Qle_bool_iff in Hbv.
  destruct (Qlt_le_dec b x) as [Hlt | Hle].
  - apply Qlt_le_weak. eapply Qle_lt_trans; eassumption.
  - apply Qle_bool_iff in Hle. congruence.
Qed.

Lemma min_from_In (best : pyfloat) (rest : list pyfloat) :
  In (min_from best rest) (best :: rest).
Proof.
  revert best. induction rest as [|x rest IH]; cbn; intros best.
  - now left.
  - destruct (IH (if lt x best then x else best)) as [H | H].
    + destruct (lt x best); rewrite <- H; auto.
    + auto.
Qed.

Lemma max_from_In (best : pyfloat) (rest : list pyfloat) :
  In (max_from best rest) (best :: rest).
Proof.
  revert best. induction rest as [|x rest IH]; cbn; intros best.
  - now left.
  - destruct (IH (if gt x best then x else best)) as [H | H].
    + destruct (gt x best); rewrite <- H; auto.
    + auto.
Qed.

(** No item seen so far compares below the running minimum. *)
Lemma min_from_lower (seen : list pyfloat) (best : pyfloat)
      (rest : list pyfloat) :
  (forall v, In v seen -> lt v best = false) ->
  forall v, In v (seen ++ rest) -> lt v (min_from best rest) = false.
Proof.
  revert seen best. induction rest as [|x rest IH]; cbn; intros seen best Hs v Hv.
  - rewrite app_nil_r in Hv. auto.
  - apply (IH (seen ++ [x])); [|now rewrite <- app_assoc].
    intros u Hu. apply in_app_or in Hu.
    destruct (lt x best) eqn:E.
    + destruct Hu as [Hu | [<- | []]].
      * eapply lt_below; eauto.
      * apply lt_irrefl.
    + destruct Hu as [Hu | [<- | []]]; auto.
Qed.

Lemma max_from_upper (seen : list pyfloat) (best : pyfloat)
      (rest : list pyfloat) :
  (forall v, In v seen -> gt v best = false) ->
  forall v, In v (seen ++ rest) -> gt v (max_from best rest) = false.
Proof.
  unfold gt.
  revert seen best. induction rest as [|x rest IH]; cbn; intros seen best Hs v Hv.
  - rewrite app_nil_r in Hv. auto.
  - apply (IH (seen ++ [x])); [|now rewrite <- app_assoc].
    intros u Hu. apply in_app_or in Hu. unfold gt.
    destruct (lt best x) eqn:E.
    + destruct Hu as [Hu | [<- | []]].
      * eapply lt_above; eauto.
      * apply lt_irrefl.
    + destruct Hu as [Hu | [<- | []]]; auto.
Qed.

(** [min] returns an item of the list below which no item compares. *)
Lemma min_is_minimal (first : pyfloat) (others : list pyfloat) :
  In (min_from first others) (first :: others)
  /\ forall v, In v (first :: others) -> lt v (min_from first others) = false.
Proof.
  split; [apply min_from_In|].
  apply (min_from_lower [first]).
  intros v [<- | []]. apply lt_irrefl.
Qed.

(** [max] returns an item of the list above which no item compares. *)
Lemma max_is_maximal (first : pyfloat) (others : list pyfloat) :
  In (max_from first others) (first :: others)
  /\ forall v, In v (first :: others) -> gt v (max_from first others) = false.
Proof.
  split; [apply max_from_In|].
  apply (max_from_upper [first]).
  intros v [<- | []]. apply lt_irrefl.
Qed.

End OrderFacts.

(* ===================================================================== *)
(** ** The metrics table of [format_email_body] *)
(* ===================================================================== *)

Module SummaryFacts.
Import ModularMLLogWatcher.

(** The rows of the table that carry a given metric name. *)
Lemma rows_absent (items : Dict.dict series) (metric : string) :
  ~ In metric (Dict.keys items) ->
  filter (fun r => String.eqb (row_metric r) metric) (metrics_summary items)
  = [].
Proof.
  induction items as [|[k vs] items IH]; cbn; intros H; [reflexivity|].
  destruct vs as [|first others]; [tauto|].
  cbn. destruct (String.eqb_spec k metric) as [->|Hne]; tauto.
Qed.

Lemma rows_present (items : Dict.dict series) (metric : string)
      (values : series) :
  NoDup (Dict.keys items) -> In (metric, values) items ->
  filter (fun r => String.eqb (row_metric r) metric) (metrics_summary items)
  = match values with
    | [] => []
    | first :: others =>
        [ {| row_metric := metric;
             row_current := last_value values;
             row_best := if py_in "loss" (lower metric)
                         then min_from first others
                         else max_from first others |} ]
    end.
Proof.
  induction items as [|[k vs] items IH]; cbn; intros Hnd Hin; [contradiction|].
  inversion Hnd as [|? ? Hk Hrest]; subst.
  destruct Hin as [[= -> ->] | Hin].
  - destruct values as [|first others].
    + now apply rows_absent.
    + cbn [filter row_metric]. rewrite String.eqb_refl.
      now rewrite rows_absent.
  - assert (Hne : k <> metric).
    { intros ->. apply Hk. change metric with (fst (metric, values)).
      now apply in_map. }
    destruct vs as [|first others]; [auto|].
    cbn [filter row_metric].
    destruct (String.eqb_spec k metric); [contradiction | auto].
Qed.

(** C9: for an entry [metric -> values] of the merged series, the table
    has no row for [metric] when [values] is empty, and otherwise exactly
    one row, whose "current" is the last item of [values] and whose "best"
    is an item of [values] below which no item compares when ["loss"]
    occurs in the lower-cased name, and above which no item compares
    otherwise. *)
Theorem summary_rows (now : Q) (new_content : string) (self : t)
        (metric : string) (values : series) :
  Dict.get metric
    (MetricPluginManager.get_all_plot_data
       (ModularMLLogParser.plugin_manager (parser self))) = Some values ->
  let rows :=
    filter (fun r => String.eqb (row_metric r) metric)
           (doc_rows (format_email_body now new_content self)) in
  (values = [] -> rows = [])
  /\ (values <> [] ->
      exists front current best,
        values = front ++ [current]
        /\ rows = [ {| row_metric := metric; row_current := current;
                       row_best := best |} ]
        /\ In best values
        /\ if py_in "loss" (lower metric)
           then forall v, In v values -> lt v best = false
           else forall v, In v values -> gt v best = false).
Proof.
  intros Hget rows. subst rows. cbn [format_email_body doc_rows].
  rewrite (@rows_present _ _ _ (PlotFacts.get_all_plot_data_nodup _)
             (@DictFacts.get_In _ _ _ _ Hget)).
  split.
  - now intros ->.
  - intros Hne. destruct values as [|first others]; [contradiction|].
    exists (removelast (first :: others)), (last_value (first :: others)).
    destruct (py_in "loss" (lower metric)).
    + exists (min_from first others). repeat split.
      * now apply app_removelast_last.
      * apply OrderFacts.min_is_minimal.
      * apply OrderFacts.min_is_minimal.
    + exists (max_from first others). repeat split.
      * now apply app_removelast_last.
      * apply OrderFacts.max_is_maximal.
      * apply OrderFacts.max_is_maximal.
Qed.

End SummaryFacts.

(** The scenario of the specification: best 0.4 and current 0.6 for a loss,
    best 0.8 and current 0.7 for an accuracy. *)
Example summary_scenario :
  ModularMLLogWatcher.metrics_summary
    [ ("Loss", [Fin (9 # 10); Fin (4 # 10); Fin (6 # 10)]);
      ("Accuracy", [Fin (5 # 10); Fin (8 # 10); Fin (7 # 10)]);
      ("WER", []) ]
  = [ {| row_metric := "Loss"; row_current := Fin (6 # 10);
         row_best := Fin (4 # 10) |};
      {| row_metric := "Accuracy"; row_current := Fin (7 # 10);
         row_best := Fin (8 # 10) |} ].
Proof. reflexivity. Qed.

(* ===================================================================== *)
(** ** [check_file_changes] *)
(* ===================================================================== *)

Module PollFacts.
Import ModularMLLogWatcher.

Lemma drop_all (n : nat) (s : string) :
  String.length s <= n -> drop n s = EmptyString.
Proof.
  revert n. induction s as [|c s IH]; intros [|n] H; cbn in *;
    try reflexivity; [lia | apply IH; lia].
Qed.

Ltac unfold_poll :=
  unfold check_file_changes, try_except_Exception, check_file_changes_try,
    with_exit, check_file_changes_with,
    bind, lift, gets, modify, ret, io_step, f_read, f_tell.



(** The ways a call can end: with nothing read, returning [None] or
    interrupted; or with a text read and recorded, which is returned
    unless closing the file raises. *)
Lemma poll_cases (io : log_io) (self : t) :
  check_file_changes io self = (self, Ret None)
  \/ check_file_changes io self = (self, Raise KeyboardInterrupt)
  \/ (exists c,
        is_empty c = false
        /\ is_empty (drop (last_position self) (file_bytes io)) = false
        /\ reading (decode io) (drop (last_position self) (file_bytes io)) c
        /\ check_file_changes io self
           = (set_buffer (buffer self ++ [c])
              (set_last_position
                 (Nat.max (last_position self)
                          (String.length (file_bytes io)))
                 self),
              Ret (Some c)))
  \/ (exists c,
        is_empty c = false
        /\ is_empty (drop (last_position self) (file_bytes io)) = false
        /\ reading (decode io) (drop (last_position self) (file_bytes io)) c
        /\ check_file_changes io self
           = (set_buffer (buffer self ++ [c])
              (set_last_position
                 (Nat.max (last_position self)
                          (String.length (file_bytes io)))
                 self),
              Ret None))
  \/ (exists c,
        is_empty c = false
        /\ is_empty (drop (last_position self) (file_bytes io)) = false
        /\ reading (decode io) (drop (last_position self) (file_bytes io)) c
        /\ check_file_changes io self
           = (set_buffer (buffer self ++ [c])
              (set_last_position
                 (Nat.max (last_position self)
                          (String.length (file_bytes io)))
                 self),
              Raise KeyboardInterrupt)).
Proof.
  unfold_poll.
  destruct (open_error io) as [[]|]; cbn; auto.
  destruct (seek_error io) as [[]|]; cbn;
    try (destruct (close_error io) as [[]|]; cbn; auto; fail).
  destruct (read_error io) as [[]|]; cbn;
    try (destruct (close_error io) as [[]|]; cbn; auto; fail).
  destruct (is_empty (drop (last_position self) (file_bytes io))) eqn:E; cbn;
    try (destruct (close_error io) as [[]|]; cbn; auto; fail).
  destruct (decode io (drop (last_position self) (file_bytes io)))
    as [text|] eqn:Ed; cbn;
    try (destruct (close_error io) as [[]|]; cbn; auto; fail).
  destruct (is_empty (universal_newlines text)) eqn:Ec; cbn;
    try (destruct (close_error io) as [[]|]; cbn; auto; fail).
  destruct (tell_error io) as [[]|]; cbn;
    try (destruct (close_error io) as [[]|]; cbn; auto; fail).
  assert (Hr : reading (decode io)
                 (drop (last_position self) (file_bytes io))
                 (universal_newlines text)) by (exists text; auto).
  destruct (close_error io) as [[]|]; cbn;
    [ right; right; right; left
    | right; right; right; left
    | right; right; right; left
    | right; right; right; right
    | right; right; left ];
    exists (universal_newlines text); auto.
Qed.

(** C6: when a call has returned, a second call that meets the same file
    and the same behaviour of the file operations returns [None] and leaves
    the watcher, its cursor and its buffer included, as the first call left
    it. *)
Theorem poll_twice (io : log_io) (self s1 : t) (r1 : option string) :
  check_file_changes io self = (s1, Ret r1) ->
  check_file_changes io s1 = (s1, Ret None).
Proof.
  unfold_poll.
  destruct (open_error io) as [[]|]; cbn;
    try (intros [= <- _]; reflexivity); try discriminate.
  destruct (close_error io) as [[]|]; cbn;
    (destruct (seek_error io) as [[]|]; cbn;
       try (intros [= <- _]; reflexivity); try discriminate);
    (destruct (read_error io) as [[]|]; cbn;
       try (intros [= <- _]; reflexivity); try discriminate);
    (destruct (is_empty (drop (last_position self) (file_bytes io))) eqn:E;
       cbn; [intros [= <- _]; rewrite E; reflexivity|]);
    (destruct (decode io (drop (last_position self) (file_bytes io)))
       as [text|] eqn:Ed; cbn;
       [|try (intros [= <- _]; rewrite E, Ed; reflexivity);
         try discriminate]);
    (destruct (is_empty (universal_newlines text)) eqn:Ec; cbn;
       [intros [= <- _]; rewrite E, Ed; cbn; rewrite Ec; reflexivity|]);
    (destruct (tell_error io) as [[]|]; cbn;
       try (intros [= <- _]; rewrite E, Ed; cbn; rewrite Ec; reflexivity);
       try discriminate);
    intros [= <- _]; cbn; rewrite drop_all by lia; reflexivity.
Qed.

End PollFacts.



Lemma poll_twice_witness :
  let io := readable "loss: 0.5" in
  let self := ModularMLLogWatcher.init "train.log" 30 30 "training_plots" 0 in
  let s1 := fst (ModularMLLogWatcher.check_file_changes io self) in
  ModularMLLogWatcher.check_file_changes io self = (s1, Ret (Some "loss: 0.5"))
  /\ ModularMLLogWatcher.last_position s1 = 9
  /\ ModularMLLogWatcher.check_file_changes io s1 = (s1, Ret None).
Proof.
  intros io self s1. split; [reflexivity | split; [reflexivity|]].
  apply (@PollFacts.poll_twice io self s1 (Some "loss: 0.5")). reflexivity.
Defined.

Lemma summary_rows_witness :
  let self :=
    ModularMLLogWatcher.set_parser
      (fst (ModularMLLogParser.parse_line "loss: 0.6"
        (fst (ModularMLLogParser.parse_line "loss: 0.4"
          (fst (ModularMLLogParser.parse_line "loss: 0.9"
                  ModularMLLogParser.init))))))
      (ModularMLLogWatcher.init "train.log" 30 30 "training_plots" 0) in
  let values := [Fin (9 # 10); Fin (2 # 5); Fin (3 # 5)] in
  exists front current best,
    values = front ++ [current]
    /\ filter (fun r => String.eqb (row_metric r) "Loss")
              (doc_rows (ModularMLLogWatcher.format_email_body 60 "" self))
       = [ {| row_metric := "Loss"; row_current := current;
              row_best := best |} ]
    /\ In best values
    /\ forall v, In v values -> lt v best = false.
Proof.
  intros self values.
  apply (proj2 (@SummaryFacts.summary_rows 60 "" self "Loss" values eq_refl)).
  discriminate.
Defined.

(* ===================================================================== *)
(** ** The watch loop *)
(* ===================================================================== *)

Module WatchFacts.
Import ModularMLLogWatcher.

Lemma truthy_snoc {A} (l : list A) (x : A) : truthy (l ++ [x]) = true.
Proof. now destruct l. Qed.

Lemma truthy_nonempty {A} (l : list A) : truthy l = true -> l <> [].
Proof. now destruct l. Qed.

Ltac unfold_cycle :=
  unfold watch_cycle, watch_try, on_interrupt, on_error, send_email,
    on_self, on_field, process_buffer, try_except_Exception;
  unfold bind, lift, gets, modify, ret.

Ltac step_cycle :=
  cbn [fst snd truthy_text self outbox negb buffer parser set_buffer
       set_last_position set_last_email_time record_delivery is_Exception
       andb truthy].

(** Case analysis on everything the environment decides in one pass: how
    the poll ends, whether a report is due, how the SMTP sessions and the
    sleeps end. *)
Ltac cycle_cases env w :=
  unfold_cycle;
  destruct (PollFacts.poll_cases (env_log env) (self w))
    as [Hp | [Hp | [(c & Hc & _ & _ & Hp)
                   | [(c & Hc & _ & _ & Hp) | (c & Hc & _ & _ & Hp)]]]];
  rewrite Hp; step_cycle; rewrite ?Hc; step_cycle; rewrite ?truthy_snoc;
  step_cycle;
  try (destruct (truthy (buffer (self w))) eqn:Hb; step_cycle);
  repeat match goal with
    | H : truthy ?b = _ |- context [truthy ?b] => rewrite H; step_cycle
    | |- context [truthy (_ ++ [_])] => rewrite truthy_snoc; step_cycle
    | |- context [should_send_email ?n ?s] =>
        destruct (should_send_email n s); step_cycle
    | |- context [env_smtp env] =>
        destruct (env_smtp env) as [[]|[]]; step_cycle
    | |- context [env_sleep env] =>
        destruct (env_sleep env) as [[]|[]]; step_cycle
    | |- context [env_smtp_final env] =>
        destruct (env_smtp_final env) as [[]|[]]; step_cycle
    | |- context [env_sleep_retry env] =>
        destruct (env_sleep_retry env) as [[]|[]]; step_cycle
    end.

Ltac outbox_grows :=
  first [ exists []; split; [now rewrite app_nil_r|]
        | rewrite <- ?app_assoc; eexists; split; [reflexivity|] ];
  cbn [In app].

Lemma watch_cycle_keeps_parser (env : cycle_env) (w : world) :
  parser (self (fst (watch_cycle env w))) = parser (self w).
Proof. cycle_cases env w; reflexivity. Qed.

(** No run of the loop, however long, changes a series. *)
Lemma watch_keeps_parser (envs : list cycle_env) (w : world) :
  parser (self (fst (watch envs w))) = parser (self w).
Proof.
  revert w. induction envs as [|env envs IH]; intros w; [reflexivity|].
  cbn [watch]. unfold bind.
  pose proof (watch_cycle_keeps_parser env w) as H.
  destruct (watch_cycle env w) as [w1 [[]|e]]; cbn [fst] in *;
    [rewrite IH | | ]; exact H.
Qed.

(** C1 (what the code does): a pass of the loop leaves the parser, and with
    it every series, as it was, whatever the poll has read; the reports
    sent during the pass take their table from those unchanged series. *)
Theorem watch_cycle_never_dispatches (env : cycle_env) (w : world) :
  let w' := fst (watch_cycle env w) in
  parser (self w') = parser (self w)
  /\ exists sent,
       outbox w' = outbox w ++ sent
       /\ forall d, In d sent ->
            doc_rows (body d)
            = metrics_summary
                (MetricPluginManager.get_all_plot_data
                   (ModularMLLogParser.plugin_manager (parser (self w)))).
Proof.
  intros w'. subst w'. split; [apply watch_cycle_keeps_parser|].
  cycle_cases env w; outbox_grows;
    intros d Hd; intuition (subst; reflexivity).
Qed.

(** C8: in one pass of the loop the poll can only append to the buffer;
    after the poll the buffer either stays as it is, and then no progress
    report was accepted, or it is emptied, and then the one delivery of the
    pass is an accepted progress report; whenever a delivery of the pass was
    refused the buffer is what the poll left. *)
Theorem buffer_cleared_only_after_accepted_delivery
        (env : cycle_env) (w : world) :
  let polled := fst (on_self (check_file_changes (env_log env)) w) in
  let w' := fst (watch_cycle env w) in
  (buffer (self polled) = buffer (self w)
   \/ exists c, buffer (self polled) = buffer (self w) ++ [c])
  /\ exists sent,
       outbox w' = outbox w ++ sent
       /\ (forall d, In d sent -> accepted d = false ->
                     buffer (self w') = buffer (self polled))
       /\ ((buffer (self w') = buffer (self polled)
            /\ forall d, In d sent -> kind d = Progress -> accepted d = false)
           \/ (buffer (self w') = [] /\ buffer (self polled) <> []
               /\ exists email_body,
                    sent = [ {| kind := Progress; body := email_body;
                                accepted := true |} ])).
Proof.
  intros polled w'. subst polled w'.
  cycle_cases env w.
  all: split; [ solve [ left; reflexivity | right; eexists; reflexivity ] |].
  all: outbox_grows.
  all: split;
    [ intros d Hd Ha; intuition (subst; try discriminate; reflexivity) |].
  all: first
    [ left; split;
      [ reflexivity
      | intros d Hd Hk; intuition (subst; try discriminate; reflexivity) ]
    | right; split;
      [ reflexivity
      | split;
        [ first [ now apply truthy_nonempty
                | now destruct (buffer (self w)) ]
        | eexists; reflexivity ] ] ].
Qed.

End WatchFacts.

(** A first pass over a log that holds a loss line, with a report due and
    accepted: the report quotes the line and its table is empty. *)
Example watch_cycle_report_without_metrics :
  let env :=
    {| env_log := readable "epoch 1 loss: 0.532";
       env_now_due := 30; env_now_body := 30; env_smtp := Ret tt;
       env_now_sent := 31; env_sleep := Ret tt; env_now_final := 0;
       env_smtp_final := Ret tt; env_sleep_retry := Ret tt |} in
  let w :=
    {| ModularMLLogWatcher.self :=
         ModularMLLogWatcher.init "train.log" 30 30 "training_plots" 0;
       ModularMLLogWatcher.outbox := [] |} in
  ModularMLLogWatcher.outbox (fst (ModularMLLogWatcher.watch_cycle env w))
  = [ {| kind := Progress;
         body := {| doc_hours := 0; doc_minutes := 0; doc_rows := [];
                    doc_log := "epoch 1 loss: 0.532" |};
         accepted := true |} ]
  /\ exists r,
       snd (ModularMLLogParser.parse_line "epoch 1 loss: 0.532"
              ModularMLLogParser.init) = Ret [r]
       /\ name r = "Loss" /\ value r = Fin (133 # 250).
Proof.
  split; [reflexivity|]. eexists. repeat split.
Qed.

(* ===================================================================== *)
(** ** More on the parsers *)
(* ===================================================================== *)

Module ParserMore.

Lemma extends_refl (l : series) : extends l l.
Proof. exists []. now rewrite app_nil_r. Qed.

Lemma extends_snoc (l : series) (v : pyfloat) : extends l (l ++ [v]).
Proof. now exists [v]. Qed.

Lemma grows_refl (p : BaseMetricParser.t) : grows p p.
Proof. destruct p; cbn; auto using extends_refl. Qed.

Lemma scan_raises_ValueError (pats : Dict.dict regex) (line : string)
      (metrics : Dict.dict pyfloat) (e : exn) :
  WERMetricParser.scan pats line metrics = Raise e -> e = ValueError.
Proof.
  revert metrics. induction pats as [|[key pat] pats IH]; cbn; intros metrics H.
  - discriminate.
  - destruct (re_search pat line) as [m|]; [|eauto].
    unfold float in H. destruct (py_float (group1 m)); [eauto|].
    now injection H as <-.
Qed.

Lemma standard_parse_raise (p : StandardMetricParser.t) (line : string)
      (e : exn) :
  snd (StandardMetricParser.parse line p) = Raise e ->
  StandardMetricParser.parse line p = (p, Raise ValueError) /\ e = ValueError.
Proof.
  unfold StandardMetricParser.parse, bind, gets, lift, float, modify, ret.
  destruct (re_search (StandardMetricParser.pattern p) (lower line)) as [m|];
    [|discriminate].
  destruct (py_float (group1 m)); cbn; [discriminate|].
  intros [= <-]. auto.
Qed.

Lemma wer_parse_raise (p : WERMetricParser.t) (line : string) (e : exn) :
  snd (WERMetricParser.parse line p) = Raise e ->
  WERMetricParser.parse line p = (p, Raise ValueError) /\ e = ValueError.
Proof.
  unfold WERMetricParser.parse, bind, lift.
  destruct (WERMetricParser.scan WERMetricParser.patterns (lower line) [])
    as [metrics|e'] eqn:Es.
  - destruct (Dict.get "wer" metrics); [|discriminate].
    unfold WERMetricParser.append_if_seen, modify, ret.
    destruct (Dict.get "sub" metrics), (Dict.get "del" metrics),
      (Dict.get "ins" metrics); discriminate.
  - cbn. intros [= <-]. apply scan_raises_ValueError in Es. subst. auto.
Qed.

Lemma base_parse_raise (parser : BaseMetricParser.t) (line : string)
      (e : exn) :
  snd (BaseMetricParser.parse line parser) = Raise e ->
  BaseMetricParser.parse line parser = (parser, Raise ValueError)
  /\ e = ValueError.
Proof.
  destruct parser as [p|p]; unfold BaseMetricParser.parse; intros H.
  - destruct (StandardMetricParser.parse line p) as [p' o] eqn:E.
    destruct (@standard_parse_raise p line e) as [H1 ->];
      [now rewrite E|].
    rewrite E in H1. now injection H1 as -> ->.
  - destruct (WERMetricParser.parse line p) as [p' o] eqn:E.
    destruct (@wer_parse_raise p line e) as [H1 ->];
      [now rewrite E|].
    rewrite E in H1. now injection H1 as -> ->.
Qed.

(** X1: for the composite parser, and for a standard parser whose pattern
    is of the modelled fragment (one capturing group that takes part in
    every match, as in every pattern of the source), a call of [parse] that
    raises does so out of [float], with [ValueError], and has appended to
    no series. *)
Theorem parse_raise_changes_nothing (parser : BaseMetricParser.t)
        (line : string) (e : exn) :
  snd (BaseMetricParser.parse line parser) = Raise e ->
  fst (BaseMetricParser.parse line parser) = parser /\ e = ValueError.
Proof.
  intros H. destruct (base_parse_raise _ _ H) as [E ->].
  now rewrite E.
Qed.

(** What the scan over the four patterns leaves in [metrics]. *)
Lemma scan_patterns (line : string) (metrics : Dict.dict pyfloat) :
  WERMetricParser.scan WERMetricParser.patterns line [] = Ret metrics ->
  Dict.get "wer" metrics = captured_number (decimal_after "wer") line
  /\ Dict.get "sub" metrics
     = captured_number (count_after "substitutions") line
  /\ Dict.get "del" metrics = captured_number (count_after "deletions") line
  /\ Dict.get "ins" metrics = captured_number (count_after "insertions") line.
Proof.
  unfold WERMetricParser.patterns, captured_number, float.
  cbn [WERMetricParser.scan].
  destruct (re_search (decimal_after "wer") line) as [m0|];
    [unfold float; destruct (py_float (group1 m0)); [|discriminate]|];
  (destruct (re_search (count_after "substitutions") line) as [m1|];
    [unfold float; destruct (py_float (group1 m1)); [|discriminate]|]);
  (destruct (re_search (count_after "deletions") line) as [m2|];
    [unfold float; destruct (py_float (group1 m2)); [|discriminate]|]);
  (destruct (re_search (count_after "insertions") line) as [m3|];
    [unfold float; destruct (py_float (group1 m3)); [|discriminate]|]);
  intros [= <-]; repeat split.
Qed.

(** X2: when the composite parser returns a result, the result is named
    ["WER"], its value is the number read for the rate pattern and has been
    appended to the rate series; each count series has gained the number
    read for its pattern, or nothing when there is none, and [extra_info]
    lists those three readings. *)
Theorem wer_parse_result (self self' : WERMetricParser.t) (line : string)
        (r : MetricResult) :
  WERMetricParser.parse line self = (self', Ret (Some r)) ->
  let sub := captured_number (count_after "substitutions") (lower line) in
  let del := captured_number (count_after "deletions") (lower line) in
  let ins := captured_number (count_after "insertions") (lower line) in
  name r = "WER"
  /\ captured_number (decimal_after "wer") (lower line) = Some (value r)
  /\ extra_info r = Some [ ("substitutions", sub); ("deletions", del);
                            ("insertions", ins) ]
  /\ WERMetricParser.wer_values self'
     = WERMetricParser.wer_values self ++ [value r]
  /\ WERMetricParser.substitutions self'
     = WERMetricParser.substitutions self ++ option_items sub
  /\ WERMetricParser.deletions self'
     = WERMetricParser.deletions self ++ option_items del
  /\ WERMetricParser.insertions self'
     = WERMetricParser.insertions self ++ option_items ins.
Proof.
  unfold WERMetricParser.parse, bind, lift.
  destruct (WERMetricParser.scan WERMetricParser.patterns (lower line) [])
    as [metrics|e] eqn:Es; [|discriminate].
  destruct (scan_patterns _ Es) as (Hw & Hs & Hd & Hi).
  rewrite <- Hw, <- Hs, <- Hd, <- Hi.
  destruct (Dict.get "wer" metrics) as [wer|]; [|discriminate].
  unfold WERMetricParser.append_if_seen, modify, ret.
  destruct (Dict.get "sub" metrics), (Dict.get "del" metrics),
    (Dict.get "ins" metrics); intros [= <- <-]; cbn;
    rewrite ?app_nil_r; repeat split.
Qed.

(** X3: when the rate pattern matches and [float] rejects the captured
    text, the composite parser raises [ValueError] and appends nothing. *)
Theorem wer_parse_malformed_rate_raises (self : WERMetricParser.t)
        (line : string) (m : Match) :
  re_search (decimal_after "wer") (lower line) = Some m ->
  py_float (group1 m) = None ->
  WERMetricParser.parse line self = (self, Raise ValueError).
Proof.
  intros Hm Hf. unfold WERMetricParser.parse, bind, lift.
  unfold WERMetricParser.patterns. cbn [WERMetricParser.scan].
  rewrite Hm. unfold float. now rewrite Hf.
Qed.

End ParserMore.

Lemma parse_raise_changes_nothing_witness :
  fst (BaseMetricParser.parse "wer: 0.21."
         (BaseMetricParser.WER WERMetricParser.init))
  = BaseMetricParser.WER WERMetricParser.init
  /\ ValueError = ValueError.
Proof.
  apply (@ParserMore.parse_raise_changes_nothing
           (BaseMetricParser.WER WERMetricParser.init) "wer: 0.21."
           ValueError).
  reflexivity.
Defined.

Lemma wer_parse_result_witness :
  let line := "WER: 0.21 Substitutions: 3 Deletions: 1" in
  let self' := fst (WERMetricParser.parse line WERMetricParser.init) in
  captured_number (decimal_after "wer") (lower line) = Some (Fin (21 # 100))
  /\ WERMetricParser.wer_values self' = [] ++ [Fin (21 # 100)]
  /\ WERMetricParser.substitutions self'
     = [] ++ option_items
               (captured_number (count_after "substitutions") (lower line))
  /\ WERMetricParser.insertions self'
     = [] ++ option_items
               (captured_number (count_after "insertions") (lower line)).
Proof.
  intros line self'.
  destruct (@ParserMore.wer_parse_result WERMetricParser.init self' line
              {| name := "WER"; value := Fin (21 # 100); epoch := None;
                 step := None;
                 extra_info :=
                   Some [ ("substitutions", Some (Fin (3 # 1)));
                          ("deletions", Some (Fin (1 # 1)));
                          ("insertions", None) ] |}
              eq_refl) as (_ & Hw & _ & Hv & Hs & _ & Hi).
  exact (conj Hw (conj Hv (conj Hs Hi))).
Defined.

Lemma wer_parse_malformed_rate_raises_witness :
  WERMetricParser.parse "Final WER: 0.21." WERMetricParser.init
  = (WERMetricParser.init, Raise ValueError).
Proof.
  apply (@ParserMore.wer_parse_malformed_rate_raises WERMetricParser.init
           "Final WER: 0.21." {| group1 := "0.21." |});
    reflexivity.
Defined.

(* ===================================================================== *)
(** ** More on [parse_line] *)
(* ===================================================================== *)

Module ManagerMore.
Import MetricPluginManager.

Lemma parse_each_ret (line : string) (todo todo' : list BaseMetricParser.t)
      (results out : list MetricResult) :
  parse_each line todo results = (todo', Ret out) ->
  todo' = map (fun p => fst (BaseMetricParser.parse line p)) todo
  /\ out = results ++ flat_map (result_of line) todo.
Proof.
  revert todo' results out.
  induction todo as [|p rest IH]; cbn [parse_each]; intros todo' results out H.
  - injection H as <- <-. cbn. now rewrite app_nil_r.
  - unfold result_of at 1. cbn [map flat_map].
    destruct (BaseMetricParser.parse line p) as [p' [res|e]]; [|discriminate].
    destruct (parse_each line rest
                (match res with Some r => results ++ [r] | None => results end))
      as [rest' o] eqn:E.
    injection H as <- ->. destruct (IH _ _ _ E) as [-> ->]. cbn [fst snd].
    split; [reflexivity|].
    destruct res; cbn; now rewrite <- ?app_assoc.
Qed.

Lemma parse_each_raise (line : string) (todo todo' : list BaseMetricParser.t)
      (results : list MetricResult) (e : exn) :
  parse_each line todo results = (todo', Raise e) ->
  exists before p after,
    todo = before ++ p :: after
    /\ Forall (fun q => exists o, snd (BaseMetricParser.parse line q) = Ret o)
              before
    /\ BaseMetricParser.parse line p = (p, Raise e)
    /\ todo' = map (fun q => fst (BaseMetricParser.parse line q)) before
               ++ p :: after.
Proof.
  revert todo' results.
  induction todo as [|p rest IH]; cbn [parse_each]; intros todo' results H.
  - discriminate.
  - destruct (BaseMetricParser.parse line p) as [p' [res|e']] eqn:Ep.
    + destruct (parse_each line rest
                  (match res with Some r => results ++ [r] | None => results
                   end)) as [rest' o] eqn:E.
      injection H as <- ->.
      destruct (IH _ _ E) as (before & q & after & -> & Hb & Hq & ->).
      exists (p :: before), q, after.
      split; [reflexivity|]. split; [|split; [assumption|]].
      * constructor; [|assumption]. rewrite Ep. cbn. eauto.
      * cbn. now rewrite Ep.
    + injection H as <- <-.
      destruct (@ParserMore.base_parse_raise p line e') as [Hp ->];
        [now rewrite Ep|].
      rewrite Ep in Hp. injection Hp as ->.
      exists [], p, rest. split; [reflexivity|]. split; [constructor|].
      split; [assumption | reflexivity].
Qed.

Lemma parse_grows (parser : BaseMetricParser.t) (line : string) :
  grows parser (fst (BaseMetricParser.parse line parser)).
Proof.
  destruct parser as [p|p]; unfold BaseMetricParser.parse.
  - unfold StandardMetricParser.parse, bind, gets, lift, float, modify, ret.
    destruct (re_search (StandardMetricParser.pattern p) (lower line)) as [m|];
      [|apply (ParserMore.grows_refl (BaseMetricParser.Standard p))].
    destruct (py_float (group1 m));
      [|apply (ParserMore.grows_refl (BaseMetricParser.Standard p))].
    cbn. auto using ParserMore.extends_snoc.
  - unfold WERMetricParser.parse, bind, lift.
    destruct (WERMetricParser.scan WERMetricParser.patterns (lower line) [])
      as [metrics|e];
      [|apply (ParserMore.grows_refl (BaseMetricParser.WER p))].
    destruct (Dict.get "wer" metrics);
      [|apply (ParserMore.grows_refl (BaseMetricParser.WER p))].
    unfold WERMetricParser.append_if_seen, modify, ret.
    destruct (Dict.get "sub" metrics), (Dict.get "del" metrics),
      (Dict.get "ins" metrics);
      cbn; auto 6 using ParserMore.extends_snoc, ParserMore.extends_refl.
Qed.

Lemma parse_each_grows (line : string) (todo : list BaseMetricParser.t)
      (results : list MetricResult) :
  Forall2 grows todo (fst (parse_each line todo results)).
Proof.
  revert results. induction todo as [|p rest IH]; cbn [parse_each]; intros results.
  - constructor.
  - pose proof (parse_grows p line) as Hp.
    destruct (BaseMetricParser.parse line p) as [p' [res|e]]; cbn [fst] in Hp.
    + specialize (IH (match res with Some r => results ++ [r] | None => results
                      end)).
      destruct (parse_each line rest _) as [rest' o]. cbn [fst] in *.
      now constructor.
    + cbn [fst]. constructor; [assumption|].
      clear. induction rest; constructor; auto using ParserMore.grows_refl.
Qed.

(** X4: when [parse_line] returns, every parser is in the state its own
    [parse] leaves it in, independently of the other parsers, and the list
    returned holds the results of the parsers that found something, in
    registration order. *)
Theorem parse_line_returns (self self' : t) (line : string)
        (results : list MetricResult) :
  parse_line line self = (self', Ret results) ->
  parsers self'
  = map (fun p => fst (BaseMetricParser.parse line p)) (parsers self)
  /\ results = flat_map (result_of line) (parsers self).
Proof.
  unfold parse_line.
  destruct (parse_each line (parsers self) []) as [ps o] eqn:E.
  intros [= <- ->]. cbn [parsers]. now apply parse_each_ret in E.
Qed.

(** X5: when [parse_line] raises, it is because the [parse] of one parser
    raised; the parsers registered before that one have run, and keep what
    they appended, while that parser and the ones after it are untouched;
    the results collected so far are lost with the exception. *)
Theorem parse_line_raises (self self' : t) (line : string) (e : exn) :
  parse_line line self = (self', Raise e) ->
  exists before p after,
    parsers self = before ++ p :: after
    /\ Forall (fun q => exists o, snd (BaseMetricParser.parse line q) = Ret o)
              before
    /\ BaseMetricParser.parse line p = (p, Raise e)
    /\ parsers self'
       = map (fun q => fst (BaseMetricParser.parse line q)) before
         ++ p :: after.
Proof.
  unfold parse_line.
  destruct (parse_each line (parsers self) []) as [ps o] eqn:E.
  intros [= <- ->]. cbn [parsers]. now apply parse_each_raise in E.
Qed.

(** X6: whatever the line and however the call ends, [parse_line] keeps
    the registered parsers in place, with their names and patterns, and each
    series after the call is the series before it with items appended:
    no series shrinks or is reordered. *)
Theorem parse_line_series_grow (self : t) (line : string) :
  Forall2 grows (parsers self) (parsers (fst (parse_line line self))).
Proof.
  unfold parse_line.
  pose proof (parse_each_grows line (parsers self) []) as H.
  destruct (parse_each line (parsers self) []) as [ps o]. exact H.
Qed.

End ManagerMore.

(** The loss pattern also finds the number that follows [val_loss]. *)
Lemma parse_line_returns_witness :
  let self := ModularMLLogParser.plugin_manager ModularMLLogParser.init in
  let line := "epoch 2 val_loss: 0.4 accuracy: 0.9" in
  let results :=
    [ {| name := "Loss"; value := Fin (2 # 5); epoch := None; step := None;
         extra_info := None |};
      {| name := "Accuracy"; value := Fin (9 # 10); epoch := None;
         step := None; extra_info := None |};
      {| name := "Val_Loss"; value := Fin (2 # 5); epoch := None;
         step := None; extra_info := None |} ] in
  MetricPluginManager.parsers (fst (MetricPluginManager.parse_line line self))
  = map (fun p => fst (BaseMetricParser.parse line p))
        (MetricPluginManager.parsers self)
  /\ results = flat_map (result_of line) (MetricPluginManager.parsers self).
Proof.
  intros self line results.
  apply (@ManagerMore.parse_line_returns self
           (fst (MetricPluginManager.parse_line line self)) line results).
  reflexivity.
Defined.

(** The loss is recorded before the composite parser raises. *)
Lemma parse_line_raises_witness :
  let self := ModularMLLogParser.plugin_manager ModularMLLogParser.init in
  let line := "loss: 0.5 wer: 0.21." in
  exists before p after,
    MetricPluginManager.parsers self = before ++ p :: after
    /\ Forall (fun q => exists o, snd (BaseMetricParser.parse line q) = Ret o)
              before
    /\ BaseMetricParser.parse line p = (p, Raise ValueError)
    /\ MetricPluginManager.parsers
         (fst (MetricPluginManager.parse_line line self))
       = map (fun q => fst (BaseMetricParser.parse line q)) before
         ++ p :: after.
Proof.
  intros self line.
  apply (@ManagerMore.parse_line_raises self
           (fst (MetricPluginManager.parse_line line self)) line ValueError).
  reflexivity.
Defined.

(* ===================================================================== *)
(** ** More on the merged series and the plots *)
(* ===================================================================== *)

Module MergeMore.
Import MetricPluginManager.

Section DictLookup.
Variable V : Type.
Implicit Types (d src : Dict.dict V) (k : string) (v : V).

Lemma get_notin k d : ~ In k (Dict.keys d) -> Dict.get k d = None.
Proof.
  induction d as [|[k0 v0] d IH]; cbn; intros H; [reflexivity|].
  destruct (String.eqb_spec k k0) as [->|Hne]; [tauto | apply IH; tauto].
Qed.

Lemma In_get k v d : NoDup (Dict.keys d) -> In (k, v) d -> Dict.get k d = Some v.
Proof.
  induction d as [|[k0 v0] d IH]; cbn; intros Hnd Hin; [contradiction|].
  inversion Hnd as [|? ? Hk Hd]; subst.
  destruct Hin as [[= -> ->] | Hin].
  - now rewrite String.eqb_refl.
  - destruct (String.eqb_spec k k0) as [->|Hne]; [|auto].
    exfalso. apply Hk. change k0 with (fst (k0, v)). now apply in_map.
Qed.

Lemma mem_false_notin k d : Dict.mem k d = false -> ~ In k (Dict.keys d).
Proof.
  unfold Dict.mem. induction d as [|[k0 v0] d IH]; cbn; [tauto|].
  destruct (String.eqb_spec k k0) as [->|Hne]; [discriminate|].
  intros H [Heq | Hin]; [congruence | now apply IH].
Qed.

Lemma get_update_absent k d src :
  Dict.mem k src = false -> Dict.get k (Dict.update d src) = Dict.get k d.
Proof.
  unfold Dict.update, Dict.mem. revert d.
  induction src as [|[k0 v0] src IH]; cbn; intros d H; [reflexivity|].
  destruct (String.eqb_spec k k0) as [->|Hne]; [discriminate|].
  rewrite IH by assumption. now apply DictFacts.get_set_other.
Qed.

Lemma get_update_present k v d src :
  NoDup (Dict.keys src) -> Dict.get k src = Some v ->
  Dict.get k (Dict.update d src) = Some v.
Proof.
  revert d. induction src as [|[k0 v0] src IH]; cbn; intros d Hnd H;
    [discriminate|].
  inversion Hnd as [|? ? Hk Hs]; subst.
  destruct (String.eqb_spec k k0) as [->|Hne].
  - injection H as ->.
    change (Dict.get k0 (Dict.update (Dict.set k0 v d) src) = Some v).
    rewrite get_update_absent.
    + apply DictFacts.get_set_same.
    + unfold Dict.mem. now rewrite get_notin.
  - apply (IH (Dict.set k0 v0 d)); assumption.
Qed.

Lemma mem_update_inv k d src :
  Dict.mem k (Dict.update d src) = true ->
  Dict.mem k d = true \/ Dict.mem k src = true.
Proof.
  destruct (Dict.mem k src) eqn:E; [auto|].
  unfold Dict.mem at 1. rewrite get_update_absent by assumption. auto.
Qed.
End DictLookup.

Lemma plot_data_nodup (p : BaseMetricParser.t) :
  NoDup (Dict.keys (BaseMetricParser.get_plot_data p)).
Proof.
  destruct p as [p|p]; cbn.
  - constructor; [intros [] | constructor].
  - unfold WERMetricParser.get_plot_data.
    assert (H0 : NoDup (Dict.keys [("WER", WERMetricParser.wer_values p)]))
      by (constructor; [intros [] | constructor]).
    destruct (truthy (WERMetricParser.substitutions p)),
      (truthy (WERMetricParser.deletions p)),
      (truthy (WERMetricParser.insertions p));
      repeat apply DictFacts.nodup_set; exact H0.
Qed.

Lemma merge_absent (k : string) (ps : list BaseMetricParser.t)
      (acc : Dict.dict series) :
  (forall q, In q ps ->
             Dict.mem k (BaseMetricParser.get_plot_data q) = false) ->
  Dict.get k
    (fold_left (fun plot_data parser =>
                  Dict.update plot_data
                              (BaseMetricParser.get_plot_data parser))
               ps acc)
  = Dict.get k acc.
Proof.
  revert acc. induction ps as [|p ps IH]; cbn; intros acc H; [reflexivity|].
  rewrite IH by auto. apply get_update_absent. auto.
Qed.

Lemma merge_mem_inv (k : string) (ps : list BaseMetricParser.t)
      (acc : Dict.dict series) :
  Dict.mem k
    (fold_left (fun plot_data parser =>
                  Dict.update plot_data
                              (BaseMetricParser.get_plot_data parser))
               ps acc) = true ->
  Dict.mem k acc = true
  \/ exists p, In p ps /\ Dict.mem k (BaseMetricParser.get_plot_data p) = true.
Proof.
  revert acc. induction ps as [|p ps IH]; cbn; intros acc H; [auto|].
  destruct (IH _ H) as [Ha | (q & Hq & Hk)].
  - apply mem_update_inv in Ha. destruct Ha; eauto.
  - eauto.
Qed.

(** X7: when several parsers offer a series under the same name, the merged
    mapping holds the series of the parser registered last among them. *)
Theorem get_all_plot_data_last_wins (self : t)
        (before after : list BaseMetricParser.t) (p : BaseMetricParser.t)
        (k : string) :
  parsers self = before ++ p :: after ->
  Dict.mem k (BaseMetricParser.get_plot_data p) = true ->
  (forall q, In q after ->
             Dict.mem k (BaseMetricParser.get_plot_data q) = false) ->
  Dict.get k (get_all_plot_data self)
  = Dict.get k (BaseMetricParser.get_plot_data p).
Proof.
  intros Hp Hk Hafter. unfold get_all_plot_data. rewrite Hp.
  rewrite fold_left_app. cbn [fold_left].
  rewrite merge_absent by assumption.
  unfold Dict.mem in Hk.
  destruct (Dict.get k (BaseMetricParser.get_plot_data p)) as [v|] eqn:E;
    [|discriminate].
  apply get_update_present; [apply plot_data_nodup | assumption].
Qed.

(** X8: the names in the merged mapping are exactly the names that some
    registered parser offers, and none of them occurs twice. *)
Theorem get_all_plot_data_names (self : t) (k : string) :
  NoDup (Dict.keys (get_all_plot_data self))
  /\ (Dict.mem k (get_all_plot_data self) = true
      <-> exists p, In p (parsers self)
                    /\ Dict.mem k (BaseMetricParser.get_plot_data p) = true).
Proof.
  split; [apply PlotFacts.get_all_plot_data_nodup|]. split.
  - intros H. apply merge_mem_inv in H.
    destruct H as [H | H]; [discriminate | assumption].
  - intros H. apply PlotFacts.merge_mem. now right.
Qed.

(** X9: registering a custom metric puts its empty series under its name
    in the merged mapping; when the name was tracked already, the values
    recorded for it so far are no longer reported, and the next report has
    no row for it. *)
Theorem add_custom_metric_hides_series
        (self : ModularMLLogWatcher.t) (metric : string) (pattern : regex)
        (now : Q) (new_content : string) :
  let self' := ModularMLLogWatcher.add_custom_metric metric pattern self in
  Dict.get metric
    (get_all_plot_data
       (ModularMLLogParser.plugin_manager (ModularMLLogWatcher.parser self')))
  = Some []
  /\ filter (fun r => String.eqb (row_metric r) metric)
            (doc_rows (ModularMLLogWatcher.format_email_body
                         now new_content self'))
     = [].
Proof.
  intros self'.
  assert (H : Dict.get metric
                (get_all_plot_data
                   (ModularMLLogParser.plugin_manager
                      (ModularMLLogWatcher.parser self'))) = Some []).
  { subst self'. unfold get_all_plot_data. cbn. rewrite fold_left_app.
    cbn. apply DictFacts.get_set_same. }
  split; [exact H|]. cbn [ModularMLLogWatcher.format_email_body doc_rows].
  now rewrite (@SummaryFacts.rows_present _ _ _
                 (PlotFacts.get_all_plot_data_nodup _)
                 (@DictFacts.get_In _ _ _ _ H)).
Qed.

(** X10: every curve that [generate_training_plots] draws carries the
    merged series of its label, and its label is one of the four main
    metrics or one of the four names of the composite parser: a custom
    metric under another name is never plotted. *)
Theorem plotted_curves (self : ModularMLLogParser.t) (save_dir : string)
        (path : string) (fig : figure) (label : string) (data : series) :
  In (path, fig)
     (ModularMLLogParser.written
        (ModularMLLogParser.generate_training_plots save_dir self)) ->
  In (label, data) (curves fig) ->
  Dict.get label
    (get_all_plot_data (ModularMLLogParser.plugin_manager self)) = Some data
  /\ In label ["Loss"; "Val_Loss"; "Accuracy"; "Val_Accuracy"; "WER";
               "Substitutions"; "Deletions"; "Insertions"].
Proof.
  unfold ModularMLLogParser.generate_training_plots.
  set (plot_data :=
         get_all_plot_data (ModularMLLogParser.plugin_manager self)).
  assert (Hmain : forall l d,
             In (l, d) (filter (fun kv => existsb (String.eqb (fst kv))
                                  ModularMLLogParser.main_metric_names)
                               plot_data) ->
             Dict.get l plot_data = Some d
             /\ In l ["Loss"; "Val_Loss"; "Accuracy"; "Val_Accuracy"; "WER";
                      "Substitutions"; "Deletions"; "Insertions"]).
  { intros l d H. apply filter_In in H. destruct H as [Hin Hname]. split.
    - apply In_get; [apply PlotFacts.get_all_plot_data_nodup | assumption].
    - cbn in Hname. repeat rewrite orb_true_iff in Hname.
      repeat rewrite String.eqb_eq in Hname. cbn.
      intuition (subst; auto 10; discriminate). }
  assert (Hcurve : forall key l d,
             In (l, d) (ModularMLLogParser.curve_if_present key plot_data) ->
             Dict.get l plot_data = Some d /\ l = key).
  { intros key l d. unfold ModularMLLogParser.curve_if_present.
    destruct (Dict.get key plot_data) eqn:E; [|contradiction].
    intros [[= <- <-] | []]. auto. }
  destruct (Dict.mem "WER" plot_data); cbn [ModularMLLogParser.written].
  - intros [[= <- <-] | [[= <- <-] | []]]; cbn [curves]; [apply Hmain|].
    intros H. repeat (apply in_app_or in H; destruct H as [H | H]);
      apply Hcurve in H; destruct H as [H ->]; (split; [exact H|]);
      cbn; tauto.
  - intros [[= <- <-] | []]; cbn [curves]. apply Hmain.
Qed.

End MergeMore.

(** A second parser named ["Loss"]: its series is the one reported. *)
Lemma get_all_plot_data_last_wins_witness :
  let first := fst (StandardMetricParser.parse "loss: 0.9"
                      (StandardMetricParser.init "Loss" (decimal_after "loss"))) in
  let second := StandardMetricParser.init "Loss" (decimal_after "cost") in
  let self := {| MetricPluginManager.parsers :=
                   [BaseMetricParser.Standard first;
                    BaseMetricParser.Standard second;
                    BaseMetricParser.WER WERMetricParser.init] |} in
  StandardMetricParser.values first = [Fin (9 # 10)]
  /\ Dict.get "Loss" (MetricPluginManager.get_all_plot_data self)
     = Dict.get "Loss" (BaseMetricParser.get_plot_data
                          (BaseMetricParser.Standard second)).
Proof.
  intros first second self. split; [reflexivity|].
  apply (@MergeMore.get_all_plot_data_last_wins self
           [BaseMetricParser.Standard first]
           [BaseMetricParser.WER WERMetricParser.init]
           (BaseMetricParser.Standard second) "Loss").
  - reflexivity.
  - reflexivity.
  - intros q [<- | []]. reflexivity.
Defined.

Lemma plotted_curves_witness :
  Dict.get "WER"
    (MetricPluginManager.get_all_plot_data
       (ModularMLLogParser.plugin_manager ModularMLLogParser.init)) = Some []
  /\ In "WER" ["Loss"; "Val_Loss"; "Accuracy"; "Val_Accuracy"; "WER";
               "Substitutions"; "Deletions"; "Insertions"].
Proof.
  apply (@MergeMore.plotted_curves ModularMLLogParser.init "plots"
           "plots/wer_progress.png"
           {| title := "WER Progress"; curves := [("WER", [])] |}
           "WER" []).
  - cbn. auto.
  - cbn. auto.
Defined.

(* ===================================================================== *)
(** ** More on the patterns *)
(* ===================================================================== *)

Module PatternMore.

Lemma occurs_app_r (c : ascii) (t s : string) :
  occurs c s = true -> occurs c (t ++ s) = true.
Proof.
  intros H. induction t as [|d t IH]; cbn; [exact H|].
  rewrite IH. apply orb_true_r.
Qed.

Lemma match_seq_lit (R : Type) (c : ascii) (ps : list piece) (s : string)
      (k : string -> option R) (r : R) :
  In (Lit c) ps -> match_seq ps s k = Some r -> occurs c s = true.
Proof.
  revert s k. induction ps as [|p ps IH]; intros s k Hin H; [contradiction|].
  destruct Hin as [-> | Hin].
  - cbn in H. destruct s as [|d s]; [discriminate|].
    cbn. destruct (Ascii.eqb c d); [reflexivity | discriminate].
  - destruct p as [c'|cs|cs]; cbn in H; destruct s as [|d s];
      try discriminate.
    + destruct (Ascii.eqb c' d); [|discriminate].
      cbn. rewrite (IH _ _ Hin H). apply orb_true_r.
    + destruct (mem cs d); [|discriminate].
      cbn. rewrite (IH _ _ Hin H). apply orb_true_r.
    + destruct (mem cs d); [|discriminate].
      apply greedy_inv in H. destruct H as (t & s2 & -> & _ & H).
      cbn. rewrite (@occurs_app_r c t s2 (IH _ _ Hin H)). apply orb_true_r.
Qed.

(** A literal character of the pattern occurs in every text the pattern
    matches. *)
Lemma match_at_lit (c : ascii) (r : regex) (s : string) (m : Match) :
  In (Lit c) (pieces r) -> match_at r s = Some m -> occurs c s = true.
Proof.
  unfold pieces, match_at. intros Hin H.
  apply in_app_or in Hin. destruct Hin as [Hin | Hin].
  - eapply match_seq_lit; eauto.
  - apply match_seq_inv in H. destruct H as (t & s1 & -> & H).
    apply occurs_app_r. apply in_app_or in Hin. destruct Hin as [Hin | Hin].
    + eapply match_seq_lit; eauto.
    + apply match_seq_inv in H. destruct H as (t' & s2 & -> & H).
      apply occurs_app_r. eapply match_seq_lit; eauto.
Qed.

Lemma re_search_lit (c : ascii) (r : regex) (s : string) (m : Match) :
  In (Lit c) (pieces r) -> re_search r s = Some m -> occurs c s = true.
Proof.
  intros Hin. induction s as [|d s IH]; cbn [re_search]; intros H.
  - destruct (match_at r EmptyString) eqn:E; [|discriminate].
    eapply match_at_lit; eauto.
  - destruct (match_at r (String d s)) eqn:E.
    + eapply match_at_lit; eauto.
    + cbn. rewrite (IH H). apply orb_true_r.
Qed.

Lemma lower_char_idem (d : ascii) : lower_char (lower_char d) = lower_char d.
Proof. destruct d as [[] [] [] [] [] [] [] []]; reflexivity. Qed.

(** A lower-cased text holds no character that [str.lower] would change. *)
Lemma occurs_lower (c : ascii) (s : string) :
  occurs c (lower s) = true -> lower_char c = c.
Proof.
  induction s as [|d s IH]; cbn; [discriminate|].
  destruct (Ascii.eqb_spec c (lower_char d)) as [->|Hne]; cbn.
  - intros _. apply lower_char_idem.
  - exact IH.
Qed.

(** X11: a pattern of the modelled fragment (a row of literal characters,
    sets and [set+] repetitions that every match has to go through, without
    flags) in which one of the literal characters is changed by
    [str.lower], a capital letter for one, matches no line at all, since
    lines are lower-cased before the search: the parser returns [None] on
    every line and its series never gets a value. *)
Theorem capital_in_pattern_never_matches
        (p : StandardMetricParser.t) (c : ascii) (line : string) :
  In (Lit c) (pieces (StandardMetricParser.pattern p)) ->
  lower_char c <> c ->
  StandardMetricParser.parse line p = (p, Ret None).
Proof.
  intros Hin Hc. apply StandardFacts.parse_no_match.
  destruct (re_search (StandardMetricParser.pattern p) (lower line)) as [m|]
    eqn:E; [|reflexivity].
  exfalso. apply Hc. eapply occurs_lower. eapply re_search_lit; eauto.
Qed.

Lemma lits_app (a b : string) : lits (a ++ b) = lits a ++ lits b.
Proof. induction a as [|c a IH]; cbn; [reflexivity | now rewrite IH]. Qed.

Lemma match_seq_lits (R : Type) (pre : string) (rest : list piece)
      (s : string) (k : string -> option R) (r : R) :
  match_seq (lits pre ++ rest) s k = Some r ->
  exists s' : string, s = (pre ++ s')%string /\ match_seq rest s' k = Some r.
Proof.
  revert s. induction pre as [|c pre IH]; cbn; intros s H.
  - eauto.
  - destruct s as [|d s]; [discriminate|].
    destruct (Ascii.eqb_spec c d) as [->|]; [|discriminate].
    destruct (IH _ H) as (s' & -> & H'). eauto.
Qed.

Lemma match_at_prefixed (pre word s : string) (m : Match) :
  match_at (decimal_after (pre ++ word)) s = Some m ->
  exists s' : string,
    s = (pre ++ s')%string /\ match_at (decimal_after word) s' = Some m.
Proof.
  unfold match_at, decimal_after. cbn [re_before re_group re_after].
  rewrite lits_app, <- app_assoc. apply match_seq_lits.
Qed.

Lemma re_search_inv (r : regex) (s : string) (m : Match) :
  re_search r s = Some m ->
  exists p s0 : string, s = (p ++ s0)%string /\ match_at r s0 = Some m.
Proof.
  induction s as [|d s IH]; cbn [re_search]; intros H.
  - destruct (match_at r EmptyString) eqn:E; [|discriminate].
    injection H as ->. exists EmptyString, EmptyString. auto.
  - destruct (match_at r (String d s)) eqn:E.
    + injection H as ->. exists EmptyString, (String d s). auto.
    + destruct (IH H) as (p & s0 & -> & H0).
      exists (String d p), s0. auto.
Qed.

Lemma re_search_suffix (r : regex) (p s0 : string) (m : Match) :
  match_at r s0 = Some m -> exists m', re_search r (p ++ s0) = Some m'.
Proof.
  intros H. induction p as [|d p IH]; cbn [append].
  - exists m. destruct s0; cbn [re_search]; now rewrite H.
  - cbn [re_search]. destruct (match_at r (String d (p ++ s0))); eauto.
Qed.

Lemma append_assoc (a b c : string) :
  ((a ++ b) ++ c)%string = (a ++ (b ++ c))%string.
Proof. induction a as [|d a IH]; cbn; [reflexivity | now rewrite IH]. Qed.

Lemma re_search_prefixed (pre word s : string) (m : Match) :
  re_search (decimal_after (pre ++ word)) s = Some m ->
  exists m', re_search (decimal_after word) s = Some m'.
Proof.
  intros H. apply re_search_inv in H. destruct H as (p & s0 & -> & H).
  apply match_at_prefixed in H. destruct H as (s' & -> & H).
  rewrite <- append_assoc. eapply re_search_suffix; eauto.
Qed.

(** X12: a metric whose pattern is another metric's word with something in
    front ([val_loss] and [loss], [val_accuracy] and [accuracy]) never finds
    a value alone: on every line where its parser returns a result, the
    pattern of the plain metric matches too, so that the plain parser
    records a value of its own from that line or raises. *)
Theorem prefixed_metric_feeds_plain
        (pre word : string) (p p' q : StandardMetricParser.t)
        (line : string) (r : MetricResult) :
  StandardMetricParser.pattern p = decimal_after (pre ++ word) ->
  StandardMetricParser.pattern q = decimal_after word ->
  StandardMetricParser.parse line p = (p', Ret (Some r)) ->
  (exists m, re_search (StandardMetricParser.pattern q) (lower line) = Some m)
  /\ snd (StandardMetricParser.parse line q) <> Ret None.
Proof.
  intros Hp Hq H.
  assert (Hm : exists m,
             re_search (StandardMetricParser.pattern q) (lower line) = Some m).
  { revert H. unfold StandardMetricParser.parse, bind, gets. rewrite Hp, Hq.
    destruct (re_search (decimal_after (pre ++ word)) (lower line)) as [m|]
      eqn:E; [|discriminate].
    intros _. eapply re_search_prefixed; eauto. }
  split; [exact Hm|]. destruct Hm as [m Hm].
  unfold StandardMetricParser.parse, bind, gets, lift, float, modify, ret.
  rewrite Hm. destruct (py_float (group1 m)); discriminate.
Qed.

End PatternMore.

(** A learning-rate pattern written with capitals. *)
Lemma capital_in_pattern_never_matches_witness :
  StandardMetricParser.parse "LR: 0.001"
    (StandardMetricParser.init "LR" (decimal_after "LR"))
  = (StandardMetricParser.init "LR" (decimal_after "LR"), Ret None).
Proof.
  apply (@PatternMore.capital_in_pattern_never_matches
           (StandardMetricParser.init "LR" (decimal_after "LR")) "L"
           "LR: 0.001").
  - cbn. auto.
  - discriminate.
Defined.

Lemma prefixed_metric_feeds_plain_witness :
  let val := StandardMetricParser.init "Val_Loss" (decimal_after "val_loss") in
  let plain := StandardMetricParser.init "Loss" (decimal_after "loss") in
  (exists m, re_search (decimal_after "loss") (lower "val_loss: 0.3") = Some m)
  /\ snd (StandardMetricParser.parse "val_loss: 0.3" plain) <> Ret None.
Proof.
  intros val plain.
  apply (@PatternMore.prefixed_metric_feeds_plain "val_" "loss" val
           (fst (StandardMetricParser.parse "val_loss: 0.3" val)) plain
           "val_loss: 0.3"
           {| name := "Val_Loss"; value := Fin (3 # 10); epoch := None;
              step := None; extra_info := None |});
    reflexivity.
Defined.

(* ===================================================================== *)
(** ** More on [check_file_changes] *)
(* ===================================================================== *)

Module PollMore.
Import ModularMLLogWatcher PollFacts.

Lemma drop_app (old added : string) :
  drop (String.length old) (old ++ added) = added.
Proof. induction old as [|c old IH]; cbn; [now destruct added | exact IH]. Qed.

Lemma take_app_le (n : nat) (text added : string) :
  n <= String.length text -> take n (text ++ added) = take n text.
Proof.
  revert n. induction text as [|c text IH]; intros [|n] H; cbn in *;
    try lia; try (now destruct added).
  rewrite IH by lia. reflexivity.
Qed.

Lemma take_drop (n : nat) (s : string) : (take n s ++ drop n s)%string = s.
Proof.
  revert n. induction s as [|c s IH]; intros [|n]; cbn; try reflexivity.
  now rewrite IH.
Qed.

Lemma take_all (s : string) : take (String.length s) s = s.
Proof. induction s as [|c s IH]; cbn; [reflexivity | now rewrite IH]. Qed.

Lemma string_app_nil_r (s : string) : (s ++ "")%string = s.
Proof. induction s as [|c s IH]; cbn; [reflexivity | now rewrite IH]. Qed.

Lemma join_snoc (parts : list string) (c : string) :
  join (parts ++ [c]) = (join parts ++ c)%string.
Proof.
  induction parts as [|p parts IH]; cbn.
  - apply string_app_nil_r.
  - rewrite IH. symmetry. apply PatternMore.append_assoc.
Qed.

(** Text without a carriage return passes the line-end translation as it
    is. *)
Lemma universal_newlines_plain (s : string) :
  occurs "013" s = false -> universal_newlines s = s.
Proof.
  induction s as [|c s IH]; cbn [universal_newlines occurs];
    [reflexivity|].
  rewrite (Ascii.eqb_sym "013" c).
  destruct (Ascii.eqb c "013"); cbn [orb]; [discriminate|].
  intros H. now rewrite IH.
Qed.

Lemma universal_newlines_nonempty (s : string) :
  s <> EmptyString -> is_empty (universal_newlines s) = false.
Proof.
  destruct s as [|c s]; [contradiction|]. intros _.
  cbn [universal_newlines].
  destruct (Ascii.eqb c "013"); [|reflexivity].
  destruct s as [|[[] [] [] [] [] [] [] []] s]; reflexivity.
Qed.

(** X13: when the cursor stands at the end of the old bytes and bytes have
    been appended to the file since, a call that meets no error returns
    the text of exactly the appended bytes, decoded in the locale's
    encoding with CR LF and CR turned into LF, appends it to the buffer,
    and moves the cursor forward by the number of appended bytes; where the
    decoded text holds no carriage return it is returned as it is. *)
Theorem poll_returns_appended (io : log_io) (self : t)
        (old added text : string) :
  io_ok io ->
  file_bytes io = (old ++ added)%string ->
  last_position self = String.length old ->
  added <> EmptyString ->
  decode io added = Some text ->
  text <> EmptyString ->
  check_file_changes io self
  = (set_buffer (buffer self ++ [universal_newlines text])
       (set_last_position (String.length old + String.length added) self),
     Ret (Some (universal_newlines text)))
  /\ (occurs "013" text = false -> universal_newlines text = text).
Proof.
  intros (Ho & Hs & Hr & Ht & Hc) Hbytes Hpos Hadded Hdec Hne.
  split; [|apply universal_newlines_plain].
  unfold_poll.
  rewrite Ho, Hs, Hr, Ht, Hc, Hbytes, Hpos. cbn. rewrite drop_app.
  destruct added as [|b added]; [contradiction|]. cbn [is_empty].
  rewrite Hdec. cbn. rewrite (universal_newlines_nonempty Hne). cbn.
  rewrite length_append. cbn.
  now replace (Nat.max (String.length old)
                 (String.length old + S (String.length added)))
    with (String.length old + S (String.length added)) by lia.
Qed.

(** A call keeps the tiling of the file by the pieces of the buffer. *)
Lemma poll_keeps_tiling (dec : string -> option string) (io : log_io)
      (self : t) (bytes : string) :
  (exists added : string, file_bytes io = (bytes ++ added)%string) ->
  decode io = dec ->
  tiles dec bytes self ->
  tiles dec (file_bytes io) (fst (check_file_changes io self)).
Proof.
  intros [added Hbytes] Hdec (Hpos & runs & Hjoin & Hread).
  assert (Hlen : last_position self <= String.length (file_bytes io))
    by (rewrite Hbytes, length_append; lia).
  assert (Hsame : join runs = take (last_position self) (file_bytes io))
    by (rewrite Hbytes, take_app_le; assumption).
  assert (Hkeep : tiles dec (file_bytes io) self)
    by (split; [assumption | exists runs; auto]).
  destruct (poll_cases io self)
    as [Hp | [Hp | [(c & _ & _ & Hc & Hp)
                   | [(c & _ & _ & Hc & Hp) | (c & _ & _ & Hc & Hp)]]]];
    rewrite Hp; cbn [fst]; try exact Hkeep;
    (split; cbn [last_position buffer set_buffer set_last_position];
     [ rewrite Nat.max_r by assumption; lia
     | exists (runs ++ [drop (last_position self) (file_bytes io)]);
       rewrite Nat.max_r by assumption; split;
       [ rewrite join_snoc, Hsame, take_drop; symmetry; apply take_all
       | apply Forall2_app; [assumption|];
         constructor; [now rewrite <- Hdec | constructor] ] ]).
Qed.

(** X14: while the log file only has bytes appended, any number of calls,
    whichever of them meet errors, keep this account: the cursor lies
    inside the file, and the pieces of the buffer are the readings (decoded
    in the locale's encoding, line ends translated) of consecutive runs of
    bytes that make up the file from its start to the cursor, so that no
    byte is skipped and none is read twice; this if it was so before the
    first call, as it is for a new watcher. *)
Theorem polls_keep_account (dec : string -> option string)
        (ios : list log_io) (bytes : string) (self : t) :
  only_grows bytes ios ->
  (forall io, In io ios -> decode io = dec) ->
  tiles dec bytes self ->
  tiles dec (last_text bytes ios) (after_polls ios self).
Proof.
  revert bytes self.
  induction ios as [|io ios IH]; intros bytes self Hg Hdec Ht.
  - exact Ht.
  - destruct Hg as [Hadd Hg]. cbn [after_polls fold_left last_text].
    apply IH; [assumption | intros io' H'; apply Hdec; now right |].
    apply poll_keeps_tiling with (bytes := bytes);
      [assumption | apply Hdec; now left | assumption].
Qed.

(** X15: when the file is not longer than the cursor, as after the log has
    been truncated or replaced by a shorter one, a call reads nothing and
    changes nothing, whatever the file holds. *)
Theorem poll_blind_below_cursor (io : log_io) (self : t) :
  String.length (file_bytes io) <= last_position self ->
  fst (check_file_changes io self) = self
  /\ forall c, snd (check_file_changes io self) <> Ret (Some c).
Proof.
  intros Hlen.
  destruct (poll_cases io self)
    as [Hp | [Hp | [(c & _ & Hne & _ & Hp)
                   | [(c & _ & Hne & _ & Hp) | (c & _ & Hne & _ & Hp)]]]].
  all: try (rewrite drop_all in Hne by assumption; discriminate).
  all: rewrite Hp; cbn [fst snd]; (split; [reflexivity | discriminate]).
Qed.

End PollMore.

(** A log written with CR LF line ends: the text comes back with LF. *)
Lemma poll_returns_appended_witness :
  let old := ("loss: 0.9" ++ String "013" (String "010" ""))%string in
  let added := ("loss: 0.4" ++ String "013" (String "010" ""))%string in
  let io := readable (old ++ added)%string in
  let self :=
    ModularMLLogWatcher.set_last_position 11
      (ModularMLLogWatcher.init "train.log" 30 30 "training_plots" 0) in
  ModularMLLogWatcher.check_file_changes io self
  = (ModularMLLogWatcher.set_buffer [ ("loss: 0.4" ++ String "010" "")%string ]
       (ModularMLLogWatcher.set_last_position (11 + 11) self),
     Ret (Some ("loss: 0.4" ++ String "010" "")%string)).
Proof.
  intros old added io self.
  apply (@PollMore.poll_returns_appended io self old added added).
  - repeat split.
  - reflexivity.
  - reflexivity.
  - discriminate.
  - reflexivity.
  - discriminate.
Defined.

(** Three calls: the first reads a line that ends in CR, the second fails
    to open the file, the third reads what has been appended meanwhile,
    which begins with the LF of that line end. *)
Lemma polls_keep_account_witness :
  let line1 := ("loss: 0.9" ++ String "013" "")%string in
  let line2 := String "010" "loss: 0.4" in
  let io1 := readable line1 in
  let io2 := {| open_error := Some OSError; seek_error := None;
                read_error := None; tell_error := None;
                close_error := None; file_bytes := (line1 ++ line2)%string;
                decode := latin_1 |} in
  let io3 := readable (line1 ++ line2)%string in
  let self' :=
    after_polls [io1; io2; io3]
      (ModularMLLogWatcher.init "train.log" 30 30 "training_plots" 0) in
  ModularMLLogWatcher.buffer self'
  = [ ("loss: 0.9" ++ String "010" "")%string; String "010" "loss: 0.4" ]
  /\ tiles latin_1 (line1 ++ line2)%string self'.
Proof.
  intros line1 line2 io1 io2 io3 self'. split; [reflexivity|].
  apply (@PollMore.polls_keep_account latin_1 [io1; io2; io3] ""
           (ModularMLLogWatcher.init "train.log" 30 30 "training_plots" 0)).
  - cbn. repeat split.
    + now exists line1.
    + now exists line2.
    + now exists "".
  - intros io [<- | [<- | [<- | []]]]; reflexivity.
  - split; [cbn; lia|]. exists []. split; [reflexivity | constructor].
Defined.

(** The log has been replaced by a shorter one. *)
Lemma poll_blind_below_cursor_witness :
  let io := readable "loss: 0.1" in
  let self :=
    ModularMLLogWatcher.set_last_position 20
      (ModularMLLogWatcher.init "train.log" 30 30 "training_plots" 0) in
  fst (ModularMLLogWatcher.check_file_changes io self) = self
  /\ forall c,
       snd (ModularMLLogWatcher.check_file_changes io self) <> Ret (Some c).
Proof.
  intros io self. apply PollMore.poll_blind_below_cursor. cbn. lia.
Defined.

(* ===================================================================== *)
(** ** More on the watch loop *)
(* ===================================================================== *)

Module WatchMore.
Import ModularMLLogWatcher WatchFacts.

(** Once a report is due it stays due as the clock advances. *)
Lemma should_send_later (now now' : Q) (self : t) :
  (now <= now')%Q ->
  should_send_email now self = true -> should_send_email now' self = true.
Proof.
  unfold should_send_email. intros Hle H.
  apply Qle_bool_iff. apply Qle_bool_iff in H.
  eapply Qle_trans; [exact H|]. unfold Qminus.
  apply Qplus_le_compat; [assumption | apply Qle_refl].
Qed.

(** What a call of [check_file_changes] can change. *)
Lemma poll_frame (io : log_io) (s s' : t) (o : outcome (option string)) :
  check_file_changes io s = (s', o) ->
  (exists more, buffer s' = buffer s ++ more)
  /\ last_position s <= last_position s'
  /\ last_email_time s' = last_email_time s
  /\ email_interval s' = email_interval s
  /\ parser s' = parser s.
Proof.
  destruct (PollFacts.poll_cases io s)
    as [Hp | [Hp | [(c & _ & _ & _ & Hp)
                   | [(c & _ & _ & _ & Hp) | (c & _ & _ & _ & Hp)]]]];
    rewrite Hp; intros [= <- <-]; cbn;
    repeat split; try lia; try (exists []; now rewrite app_nil_r); eauto.
Qed.

Lemma cycle_accepted (env : cycle_env) (w : world) (s1 : t)
      (r : option string) :
  check_file_changes (env_log env) (self w) = (s1, Ret r) ->
  truthy (buffer s1) = true ->
  should_send_email (env_now_due env) s1 = true ->
  env_smtp env = Ret tt -> env_sleep env = Ret tt ->
  watch_cycle env w
  = ({| self := set_last_email_time (env_now_sent env) (set_buffer [] s1);
        outbox := outbox w
                  ++ [ {| kind := Progress;
                          body := format_email_body (env_now_body env)
                                    (join (buffer s1)) s1;
                          accepted := true |} ] |},
     Ret Continue).
Proof.
  intros Hp Hb Hd Hs Hz. unfold_cycle. rewrite Hp. step_cycle.
  destruct (truthy_text r); step_cycle; rewrite Hb, Hd, Hs; step_cycle;
    rewrite Hz; reflexivity.
Qed.

Lemma cycle_refused (env : cycle_env) (w : world) (s1 : t)
      (r : option string) (e : exn) :
  check_file_changes (env_log env) (self w) = (s1, Ret r) ->
  truthy (buffer s1) = true ->
  should_send_email (env_now_due env) s1 = true ->
  env_smtp env = Raise e -> is_Exception e = true -> env_sleep env = Ret tt ->
  watch_cycle env w
  = ({| self := s1;
        outbox := outbox w
                  ++ [ {| kind := Progress;
                          body := format_email_body (env_now_body env)
                                    (join (buffer s1)) s1;
                          accepted := false |} ] |},
     Ret Continue).
Proof.
  intros Hp Hb Hd Hs He Hz. unfold_cycle. rewrite Hp. step_cycle.
  destruct (truthy_text r); step_cycle; rewrite Hb, Hd, Hs; step_cycle;
    rewrite He; step_cycle; rewrite Hz; reflexivity.
Qed.

(** X16: every report sent during a pass, progress or final, quotes the
    whole buffer as the poll of that pass left it, the text just read
    included; no report is sent with an empty buffer, and no progress
    report before the interval has elapsed. *)
Theorem reports_quote_the_buffer (env : cycle_env) (w : world) :
  let polled := fst (on_self (check_file_changes (env_log env)) w) in
  let w' := fst (watch_cycle env w) in
  exists sent,
    outbox w' = outbox w ++ sent
    /\ forall d, In d sent ->
         doc_log (body d) = join (buffer (self polled))
         /\ buffer (self polled) <> []
         /\ (kind d = Progress ->
             should_send_email (env_now_due env) (self polled) = true).
Proof.
  intros polled w'. subst polled w'.
  cycle_cases env w; outbox_grows; intros d Hd;
    repeat match goal with
      | H : _ \/ _ |- _ => destruct H as [<- | H]
      | H : False |- _ => contradiction
      end;
    cbn [body doc_log kind format_email_body];
    (split; [reflexivity|]);
    (split; [ first [ now apply truthy_nonempty
                    | now destruct (buffer (self w)) ]
            | first [ reflexivity | discriminate ] ]).
Qed.

(** X17: when a pass has text in the buffer after its poll and the interval
    has elapsed, it sends one progress report.  Accepted, the buffer is
    emptied and [last_email_time] becomes the clock read after the send;
    refused, because the SMTP session raised an [Exception], buffer and
    [last_email_time] stay as they are.  Either way the loop goes on. *)
Theorem due_report_outcome (env : cycle_env) (w : world) (s1 : t)
        (r : option string) :
  check_file_changes (env_log env) (self w) = (s1, Ret r) ->
  truthy (buffer s1) = true ->
  should_send_email (env_now_due env) s1 = true ->
  (env_smtp env = Ret tt \/ exists e, env_smtp env = Raise e
                                      /\ is_Exception e = true) ->
  env_sleep env = Ret tt ->
  exists d w',
    watch_cycle env w = (w', Ret Continue)
    /\ outbox w' = outbox w ++ [d]
    /\ kind d = Progress
    /\ (accepted d = true <-> env_smtp env = Ret tt)
    /\ (accepted d = true ->
        buffer (self w') = []
        /\ last_email_time (self w') = env_now_sent env)
    /\ (accepted d = false ->
        buffer (self w') = buffer s1
        /\ last_email_time (self w') = last_email_time s1).
Proof.
  intros Hp Hb Hd [Hs | (e & Hs & He)] Hz.
  - eexists _, _. split; [eapply cycle_accepted; eassumption|].
    cbn. repeat split; auto; discriminate.
  - eexists _, _. split; [eapply cycle_refused; eassumption|].
    cbn. repeat split; auto; try discriminate.
    rewrite Hs. discriminate.
Qed.

(** X18: a refused progress report is sent again by the next pass whose poll
    returns, as long as the clock has not gone back: that pass sends a
    report that quotes the text kept from before together with what its
    own poll has read, and once it is accepted the buffer is empty. *)
Theorem refused_report_is_retried (env1 env2 : cycle_env) (w : world)
        (s1 s2 : t) (r1 r2 : option string) (e : exn) :
  check_file_changes (env_log env1) (self w) = (s1, Ret r1) ->
  truthy (buffer s1) = true ->
  should_send_email (env_now_due env1) s1 = true ->
  env_smtp env1 = Raise e -> is_Exception e = true ->
  env_sleep env1 = Ret tt ->
  (env_now_due env1 <= env_now_due env2)%Q ->
  check_file_changes (env_log env2) s1 = (s2, Ret r2) ->
  env_smtp env2 = Ret tt -> env_sleep env2 = Ret tt ->
  exists d1 d2 w',
    watch [env1; env2] w = (w', Ret Continue)
    /\ outbox w' = outbox w ++ [d1; d2]
    /\ accepted d1 = false /\ accepted d2 = true /\ kind d2 = Progress
    /\ doc_log (body d2) = join (buffer s2)
    /\ (exists more, buffer s2 = buffer s1 ++ more)
    /\ buffer (self w') = [].
Proof.
  intros Hp1 Hb1 Hd1 Hs1 He1 Hz1 Hclock Hp2 Hs2 Hz2.
  destruct (poll_frame _ _ Hp2) as ([more Hmore] & _ & Htime & Hint & _).
  assert (Hb2 : truthy (buffer s2) = true).
  { rewrite Hmore. destruct (buffer s1); [discriminate | reflexivity]. }
  assert (Hd2 : should_send_email (env_now_due env2) s2 = true).
  { pose proof (should_send_later _ Hclock Hd1) as H.
    unfold should_send_email in *. now rewrite Htime, Hint. }
  eexists _, _, _. split.
  - cbn [watch]. unfold bind.
    rewrite (cycle_refused _ _ Hp1 Hb1 Hd1 Hs1 He1 Hz1).
    rewrite (@cycle_accepted env2 {| self := s1; outbox := _ |} s2 r2
               Hp2 Hb2 Hd2 Hs2 Hz2).
    reflexivity.
  - cbn. rewrite <- app_assoc. repeat split. eauto.
Qed.

Lemma watch_cycle_cursor (env : cycle_env) (w : world) :
  last_position (self w) <= last_position (self (fst (watch_cycle env w))).
Proof. cycle_cases env w; cbn; lia. Qed.

(** X19: over any run of the loop the cursor never moves back. *)
Theorem watch_cursor_never_moves_back (envs : list cycle_env) (w : world) :
  last_position (self w) <= last_position (self (fst (watch envs w))).
Proof.
  revert w. induction envs as [|env envs IH]; intros w; [cbn; lia|].
  cbn [watch]. unfold bind.
  pose proof (watch_cycle_cursor env w) as H.
  destruct (watch_cycle env w) as [w1 [[]|e]]; cbn [fst] in *;
    [specialize (IH w1); lia | exact H | exact H].
Qed.



End WatchMore.

Lemma due_report_outcome_witness :
  let env := with_smtp (Raise OSError) (calm "loss: 0.5" 30) in
  exists d w',
    ModularMLLogWatcher.watch_cycle env new_world = (w', Ret Continue)
    /\ ModularMLLogWatcher.outbox w' = [] ++ [d]
    /\ kind d = Progress
    /\ (accepted d = true <-> env_smtp env = Ret tt)
    /\ (accepted d = true ->
        ModularMLLogWatcher.buffer (ModularMLLogWatcher.self w') = []
        /\ ModularMLLogWatcher.last_email_time (ModularMLLogWatcher.self w')
           = env_now_sent env)
    /\ (accepted d = false ->
        ModularMLLogWatcher.buffer (ModularMLLogWatcher.self w')
        = [ "loss: 0.5" ]
        /\ ModularMLLogWatcher.last_email_time (ModularMLLogWatcher.self w')
           = 0%Q).
Proof.
  intros env.
  apply (@WatchMore.due_report_outcome env new_world
           (fst (ModularMLLogWatcher.check_file_changes (env_log env)
                   (ModularMLLogWatcher.self new_world)))
           (Some "loss: 0.5")).
  - reflexivity.
  - reflexivity.
  - reflexivity.
  - right. exists OSError. split; reflexivity.
  - reflexivity.
Defined.

(** The mail server refuses at time 30 and accepts at time 60; meanwhile a
    second line has been written. *)
Lemma refused_report_is_retried_witness :
  let env1 := with_smtp (Raise OSError) (calm "loss: 0.5 " 30) in
  let env2 := calm "loss: 0.5 loss: 0.4" 60 in
  exists d1 d2 w',
    ModularMLLogWatcher.watch [env1; env2] new_world = (w', Ret Continue)
    /\ ModularMLLogWatcher.outbox w' = [] ++ [d1; d2]
    /\ accepted d1 = false /\ accepted d2 = true /\ kind d2 = Progress
    /\ doc_log (body d2) = join [ "loss: 0.5 "; "loss: 0.4" ]
    /\ (exists more, [ "loss: 0.5 "; "loss: 0.4" ] = [ "loss: 0.5 " ] ++ more)
    /\ ModularMLLogWatcher.buffer (ModularMLLogWatcher.self w') = [].
Proof.
  intros env1 env2.
  pose (s1 := fst (ModularMLLogWatcher.check_file_changes (env_log env1)
                     (ModularMLLogWatcher.self new_world))).
  apply (@WatchMore.refused_report_is_retried env1 env2 new_world s1
           (fst (ModularMLLogWatcher.check_file_changes (env_log env2) s1))
           (Some "loss: 0.5 ") (Some "loss: 0.4") OSError);
    try reflexivity.
  cbv. discriminate.
Defined.



(* ===================================================================== *)
(** ** The duration shown in a report *)
(* ===================================================================== *)

Module ReportMore.
Import ModularMLLogWatcher.

(** X22: the hours and minutes shown in a report split the time elapsed
    since the start, whatever its sign: the minutes lie between 0 and 59,
    and hours and minutes together fall short of the elapsed time by less
    than one minute. *)
Theorem report_duration (now : Q) (new_content : string) (self : t) :
  let d := (now - training_start_time self)%Q in
  let doc := format_email_body now new_content self in
  (0 <= doc_minutes doc < 60)%Z
  /\ (inject_Z (3600 * doc_hours doc + 60 * doc_minutes doc) <= d)%Q
  /\ (d < inject_Z (3600 * doc_hours doc + 60 * doc_minutes doc + 60))%Q.
Proof.
  intros d doc. subst doc. cbn [format_email_body doc_hours doc_minutes].
  fold d.
  set (h := Qfloor (d / 3600)).
  set (m := Qfloor ((d - 3600 * inject_Z h) / 60)).
  pose proof (Qfloor_le (d / 3600)) as Hh1.
  pose proof (Qlt_floor (d / 3600)) as Hh2.
  pose proof (Qfloor_le ((d - 3600 * inject_Z h) / 60)) as Hm1.
  pose proof (Qlt_floor ((d - 3600 * inject_Z h) / 60)) as Hm2.
  fold h in Hh1, Hh2. fold m in Hm1, Hm2.
  rewrite inject_Z_plus in Hh2, Hm2.
  change (inject_Z 1) with 1%Q in *.
  assert (Ex : (d == 3600 * (d / 3600))%Q) by field.
  assert (Ey : (d - 3600 * inject_Z h
                == 60 * ((d - 3600 * inject_Z h) / 60))%Q) by field.
  set (x := (d / 3600)%Q) in *.
  set (y := ((d - 3600 * inject_Z h) / 60)%Q) in *.
  clearbody x y.
  assert (Hm : (0 <= m < 60)%Z).
  { split.
    - apply Z.lt_succ_r. rewrite Zlt_Qlt. unfold Z.succ.
      rewrite inject_Z_plus.
      change (inject_Z 0) with 0%Q. change (inject_Z 1) with 1%Q. lra.
    - rewrite Zlt_Qlt. change (inject_Z 60) with 60%Q. lra. }
  split; [exact Hm|].
  rewrite !inject_Z_plus, !inject_Z_mult.
  change (inject_Z 3600) with 3600%Q. change (inject_Z 60) with 60%Q.
  split; lra.
Qed.

End ReportMore.

(** Two hours, one minute and five seconds after the start. *)
Example report_duration_example :
  let doc :=
    ModularMLLogWatcher.format_email_body 7265 ""
      (ModularMLLogWatcher.init "train.log" 30 30 "training_plots" 0) in
  doc_hours doc = 2%Z /\ doc_minutes doc = 1%Z.
Proof. split; reflexivity. Qed.

(* ===================================================================== *)
(** ** [setup_email_config] *)
(* ===================================================================== *)

Module SetupMore.
Import MLLogWatcher.

Lemma truthy_text_some (o : option string) :
  ModularMLLogWatcher.truthy_text o = true ->
  exists text, o = Some text /\ text <> EmptyString.
Proof.
  destruct o as [[|c text]|]; cbn; try discriminate.
  intros _. eexists. split; [reflexivity | discriminate].
Qed.

(** X23: when [setup_email_config] returns, sender, password and recipient
    are all set to non-empty strings; when it does not, it raises
    [ValueError]. *)
Theorem setup_email_config_complete (environ : Dict.dict string)
        (self : email_settings) :
  match setup_email_config environ self with
  | (self', Ret _) =>
      (exists text, sender_email self' = Some text /\ text <> EmptyString)
      /\ (exists text, sender_password self' = Some text
                       /\ text <> EmptyString)
      /\ (exists text, recipient_email self' = Some text
                       /\ text <> EmptyString)
  | (_, Raise e) => e = ValueError
  end.
Proof.
  unfold setup_email_config, bind, gets, modify, ret, raise.
  destruct (all_given self) eqn:E; cbn [negb].
  - rewrite E. cbn [negb]. unfold all_given in E.
    apply andb_true_iff in E. destruct E as [E E3].
    apply andb_true_iff in E. destruct E as [E1 E2].
    auto using truthy_text_some.
  - destruct (all_given (from_environment environ self)) eqn:E'; cbn [negb];
      [|reflexivity].
    unfold all_given in E'.
    apply andb_true_iff in E'. destruct E' as [E' E3].
    apply andb_true_iff in E'. destruct E' as [E1 E2].
    auto using truthy_text_some.
Qed.

(** X24: as soon as one of the three settings is missing or empty, what
    was given counts for nothing: all three are replaced by what the
    environment holds, and the call ends exactly as it does for any other
    incomplete settings. *)
Theorem setup_email_config_discards_partial (environ : Dict.dict string)
        (self other : email_settings) :
  all_given self = false ->
  all_given other = false ->
  setup_email_config environ self = setup_email_config environ other
  /\ sender_email (fst (setup_email_config environ self))
     = getenv environ "EMAIL_SENDER"
  /\ sender_password (fst (setup_email_config environ self))
     = getenv environ "EMAIL_PASSWORD"
  /\ recipient_email (fst (setup_email_config environ self))
     = getenv environ "EMAIL_RECIPIENT".
Proof.
  intros E E'. unfold setup_email_config, bind, gets, modify, ret, raise.
  rewrite E, E'. cbn [negb].
  change (from_environment environ other)
    with (from_environment environ self).
  destruct (all_given (from_environment environ self)); repeat split.
Qed.

End SetupMore.

(** The sender is passed to the constructor, the password is not, and the
    environment has no [EMAIL_SENDER]: the sender is lost, and the call
    raises as it does when nothing is passed. *)
Lemma setup_email_config_discards_partial_witness :
  let environ := [ ("EMAIL_PASSWORD", "secret");
                   ("EMAIL_RECIPIENT", "team@example.org") ] in
  let self := {| MLLogWatcher.sender_email := Some "me@example.org";
                 MLLogWatcher.sender_password := None;
                 MLLogWatcher.recipient_email := Some "team@example.org" |} in
  let nothing := {| MLLogWatcher.sender_email := None;
                    MLLogWatcher.sender_password := None;
                    MLLogWatcher.recipient_email := None |} in
  snd (MLLogWatcher.setup_email_config environ nothing) = Raise ValueError
  /\ MLLogWatcher.setup_email_config environ self
     = MLLogWatcher.setup_email_config environ nothing
  /\ MLLogWatcher.sender_email
       (fst (MLLogWatcher.setup_email_config environ self)) = None.
Proof.
  intros environ self nothing. split; [reflexivity|].
  destruct (@SetupMore.setup_email_config_discards_partial environ self
              nothing eq_refl eq_refl) as (H1 & H2 & _).
  exact (conj H1 H2).
Defined.

(* ===================================================================== *)
(** ** The tables of a whole run *)
(* ===================================================================== *)

Module RunMore.
Import ModularMLLogWatcher WatchFacts.

Lemma cycle_tables (env : cycle_env) (w : world) :
  exists sent,
    outbox (fst (watch_cycle env w)) = outbox w ++ sent
    /\ forall d, In d sent ->
         doc_rows (body d)
         = metrics_summary
             (MetricPluginManager.get_all_plot_data
                (ModularMLLogParser.plugin_manager (parser (self w)))).
Proof.
  cycle_cases env w; outbox_grows;
    intros d Hd; intuition (subst; reflexivity).
Qed.

(** X25: over any run of the loop, whatever the log comes to hold, every
    report sent has the metrics table of the series as they were when the
    run began: the table of a watcher that starts with empty series stays
    empty in every report. *)
Theorem watch_tables_never_change (envs : list cycle_env) (w : world) :
  exists sent,
    outbox (fst (watch envs w)) = outbox w ++ sent
    /\ forall d, In d sent ->
         doc_rows (body d)
         = metrics_summary
             (MetricPluginManager.get_all_plot_data
                (ModularMLLogParser.plugin_manager (parser (self w)))).
Proof.
  revert w. induction envs as [|env envs IH]; intros w.
  - exists []. cbn. rewrite app_nil_r. split; [reflexivity | contradiction].
  - cbn [watch]. unfold bind.
    destruct (cycle_tables env w) as (sent1 & Ho1 & Hr1).
    pose proof (watch_cycle_keeps_parser env w) as Hp.
    destruct (watch_cycle env w) as [w1 [[]|e]]; cbn [fst] in *; eauto.
    destruct (IH w1) as (sent2 & Ho2 & Hr2).
    exists (sent1 ++ sent2). rewrite Ho2, Ho1, app_assoc.
    split; [reflexivity|].
    intros d Hd. apply in_app_or in Hd. destruct Hd as [Hd | Hd]; [auto|].
    rewrite <- Hp. auto.
Qed.

End RunMore.

(** Two passes of a new watcher over a log with loss lines: both reports
    have an empty table. *)
Example watch_tables_example :
  map (fun d => doc_rows (body d))
      (ModularMLLogWatcher.outbox
         (fst (ModularMLLogWatcher.watch
                 [calm "loss: 0.9 " 30; calm "loss: 0.9 loss: 0.4" 60]
                 new_world)))
  = [ []; [] ].
Proof. reflexivity. Qed.
